(** * G-Guardian backend: a shallow embedding of the offline safety core

    The development follows the most extended revision of the server
    (the one with guardians, last location and emergency packages) and the
    [fallbackRisk] scorer of [server/index.js].

    Modelling conventions.
    - A JavaScript string is a [string] (a sequence of bytes).  Case
      conversion and whitespace are the ASCII ones: [toLowerCase] and
      [toUpperCase] leave every byte above 127 alone, and [trim] and the
      regular expression class [\s] know the ASCII blanks only.  The phrase
      library and the templates are reproduced byte for byte (UTF-8).
    - A JSON value of a request body is a [jsval]; arrays and objects nested
      inside a body are not represented.  A request body is a finite map from
      field names to values, an absent field reading as [JUndefined].
    - JSON numbers are IEEE doubles ([float]).  Their decimal rendering is
      not modelled: the functions that print a number take the renderer as a
      parameter.  Risk scores are small integers and are kept in [Z].
    - The clock and the random source are inputs of the handlers that read
      them.
    - A JSON file on disk is [None] when it is missing or does not parse and
      [Some v] otherwise.  Writes are taken to succeed (the logged failure
      branch of [writeJsonFile], whose result every caller ignores, is left
      out), and the rate limiter in front of the handlers is not part of the
      model. *)

From Stdlib Require Import Ascii String ZArith PrimFloat.
From stdpp Require Import base option list strings pretty gmap.

Open Scope string_scope.
Open Scope Z_scope.

(** ** JavaScript strings *)

Definition is_upper (c : ascii) : bool :=
  let n := nat_of_ascii c in (65 <=? n)%nat && (n <=? 90)%nat.

Definition is_lower (c : ascii) : bool :=
  let n := nat_of_ascii c in (97 <=? n)%nat && (n <=? 122)%nat.

Definition is_digit (c : ascii) : bool :=
  let n := nat_of_ascii c in (48 <=? n)%nat && (n <=? 57)%nat.

(** Tab, line feed, vertical tab, form feed, carriage return, space. *)
Definition is_space (c : ascii) : bool :=
  let n := nat_of_ascii c in ((9 <=? n)%nat && (n <=? 13)%nat) || (n =? 32)%nat.

Definition lower_char (c : ascii) : ascii :=
  if is_upper c then ascii_of_nat (nat_of_ascii c + 32) else c.

Definition upper_char (c : ascii) : ascii :=
  if is_lower c then ascii_of_nat (nat_of_ascii c - 32) else c.

Fixpoint map_string (f : ascii → ascii) (s : string) : string :=
  match s with
  | EmptyString => EmptyString
  | String c s' => String (f c) (map_string f s')
  end.

Definition toLowerCase : string → string := map_string lower_char.
Definition toUpperCase : string → string := map_string upper_char.

Fixpoint trimStart (s : string) : string :=
  match s with
  | EmptyString => EmptyString
  | String c s' => if is_space c then trimStart s' else s
  end.

Fixpoint trimEnd (s : string) : string :=
  match s with
  | EmptyString => EmptyString
  | String c s' =>
      let t := trimEnd s' in
      if is_space c && String.eqb t "" then "" else String c t
  end.

Definition trim (s : string) : string := trimEnd (trimStart s).

(** [s.startsWith(p)] *)
Definition startsWith (s p : string) : bool := String.prefix p s.

(** [s.includes(p)] *)
Fixpoint includes (s p : string) : bool :=
  startsWith s p ||
  match s with
  | EmptyString => false
  | String _ s' => includes s' p
  end.

Fixpoint string_forall (f : ascii → bool) (s : string) : bool :=
  match s with
  | EmptyString => true
  | String c s' => f c && string_forall f s'
  end.

(** [list.includes(x)] on an array of strings. *)
Definition array_includes (l : list string) (x : string) : bool :=
  existsb (String.eqb x) l.

(** [array.push(x)] *)
Definition push {A : Type} (array : list A) (x : A) : list A := (array ++ [x])%list.

(** ** JSON values as the handlers see them *)

Inductive jsval : Type :=
  | JUndefined
  | JNull
  | JBool (b : bool)
  | JNum (x : float)
  | JStr (s : string).

(** Truthiness, as in [!v], [v || d] and [c ? a : b]. *)
Definition truthy (v : jsval) : bool :=
  match v with
  | JUndefined | JNull => false
  | JBool b => b
  | JNum x => negb (PrimFloat.eqb x 0 || is_nan x)
  | JStr s => negb (String.eqb s "")
  end.

(** [a || b] *)
Definition js_or (a b : jsval) : jsval := if truthy a then a else b.

(** [v === "s"] and [v === true]: no coercion. *)
Definition strict_eq_str (v : jsval) (s : string) : bool :=
  match v with
  | JStr t => String.eqb t s
  | _ => false
  end.

Definition strict_eq_true (v : jsval) : bool :=
  match v with
  | JBool b => b
  | _ => false
  end.

(** [Number.isFinite(v)]: a number that is neither NaN nor infinite. *)
Definition Number_isFinite (v : jsval) : bool :=
  match v with
  | JNum x => negb (is_nan x || is_infinity x)
  | _ => false
  end.

(** A request body: [body.k] and [k in body]. *)
Definition get (body : gmap string jsval) (k : string) : jsval :=
  default JUndefined (body !! k).

Definition has_field (body : gmap string jsval) (k : string) : bool :=
  bool_decide (is_Some (body !! k)).

(** A method call on a value that is not a string ([toUpperCase], [trim], ...)
    throws; the functions that make such calls return a [result]. *)
Inductive result (A : Type) : Type :=
  | Returns (a : A)
  | TypeError.
Arguments Returns {A} a.
Arguments TypeError {A}.

(** [v.m()] for a string method [m]. *)
Definition string_method (m : string → string) (v : jsval) : result string :=
  match v with
  | JStr s => Returns (m s)
  | _ => TypeError
  end.

Definition result_bind {A B : Type} (r : result A) (k : A → result B) : result B :=
  match r with
  | Returns a => k a
  | TypeError => TypeError
  end.

(** ** Numeric helper *)

Definition clamp (v min max : Z) : Z :=
  if v <? min then min else if v >? max then max else v.

(** [encodeURIComponent] on a byte string: the unreserved characters stay,
    every other byte becomes [%XX]. *)
Definition uri_unreserved (c : ascii) : bool :=
  is_upper c || is_lower c || is_digit c ||
  array_includes ["-"; "_"; "."; "!"; "~"; "*"; "'"; "("; ")"] (String c "").

Definition hex_digit (n : nat) : ascii :=
  if (n <? 10)%nat then ascii_of_nat (48 + n) else ascii_of_nat (55 + n).

Fixpoint encodeURIComponent (s : string) : string :=
  match s with
  | EmptyString => EmptyString
  | String c s' =>
      let n := nat_of_ascii c in
      (if uri_unreserved c then String c ""
       else String "%" (String (hex_digit (n / 16)) (String (hex_digit (n mod 16)) "")))
      +:+ encodeURIComponent s'
  end.

(** The line feed of the e-mail templates. *)
Definition nl : string := String (ascii_of_nat 10) "".

#[global] Instance result_ret : MRet result := @Returns.
#[global] Instance result_mbind : MBind result := λ A B k r, result_bind r k.

(** ** Data model *)

Record RiskResult : Type := mkRiskResult {
  riskScore : Z;
  riskLevel : string;
  reasoning : string;
  guardianMessage : string;
  saferAction : string
}.

Record EmergencyScript : Type := mkEmergencyScript {
  title : string;
  text : string;
  checklist : list string;
  suggestedFollowups : list string
}.

Record Guardian : Type := mkGuardian {
  id : string;
  name : string;
  method : string;
  value : string;
  relationship : string;
  createdAt : Z
}.

(** The four slots of [lastLocation.json]; each holds whatever JSON value the
    file has there. *)
Record LastLocation : Type := mkLastLocation {
  lat : jsval;
  lng : jsval;
  accuracy : jsval;
  ts : jsval
}.

Record GeneratedMessage : Type := mkGeneratedMessage {
  gm_ts : Z;
  gm_riskLevel : string;
  gm_contactType : string;
  gm_preview : string
}.

Record Memory : Type := mkMemory {
  hasMemory : bool;
  lastLowScenarioId : jsval;
  lastSaferAction : jsval;
  lastGeneratedMessage : option GeneratedMessage;
  lastLocationTs : jsval
}.

Record EmergencyMessage : Type := mkEmergencyMessage {
  guardianId : string;
  em_method : string;
  to : string;
  em_text : string;
  em_shareLink : string
}.

Record EmergencyPackage : Type := mkEmergencyPackage {
  messages : list EmergencyMessage;
  recommendedActions : list string;
  shareLink : string
}.

(** ** The risk engine *)

(** The classification statement shared, verbatim, by [offlineRiskEngine] and
    [fallbackRisk]:
    [let riskLevel = "LOW"; if (score >= 70) riskLevel = "HIGH";
     else if (score >= 40) riskLevel = "MEDIUM";] *)
Definition classify (score : Z) : string :=
  let riskLevel := "LOW" in
  if score >=? 70 then "HIGH"
  else if score >=? 40 then "MEDIUM"
  else riskLevel.

(** The two fixed lookup tables keyed by the classification. *)
Definition guardianMessageFor (riskLevel : string) : string :=
  if String.eqb riskLevel "HIGH"
  then "High risk detected. Stay alert and consider contacting someone you trust."
  else if String.eqb riskLevel "MEDIUM"
  then "Moderate risk detected. Stay aware of your surroundings."
  else "Low risk detected. Exercise normal caution.".

Definition saferActionFor (riskLevel : string) : string :=
  if String.eqb riskLevel "HIGH"
  then "Avoid the route if possible, choose a well-lit path, or ask someone to accompany you."
  else if String.eqb riskLevel "MEDIUM"
  then "Prefer well-lit routes and stay in populated areas."
  else "Proceed but remain aware of surroundings.".

Section Rendering.

(** [String(x)] for a number [x]: the decimal rendering of a double. *)
Variable Number_toString : float → string.

(** [String(v)] and template interpolation. *)
Definition toString (v : jsval) : string :=
  match v with
  | JUndefined => "undefined"
  | JNull => "null"
  | JBool true => "true"
  | JBool false => "false"
  | JNum x => Number_toString x
  | JStr s => s
  end.

(** The interpolated part of the [reasoning] template. *)
Definition inputsLine (input : gmap string jsval) : string :=
  "timeOfDay=" +:+ toString (get input "timeOfDay") +:+
  ", userAlone=" +:+ toString (get input "userAlone") +:+
  ", neighborhoodType=" +:+ toString (get input "neighborhoodType") +:+
  ", routeLighting=" +:+ toString (get input "routeLighting").

Definition offlineRiskEngine (input : gmap string jsval) : RiskResult :=
  let score := 0 in
  let score := if strict_eq_str (get input "timeOfDay") "night" then score + 25 else score in
  let score := if strict_eq_true (get input "userAlone") then score + 25 else score in
  let score := if strict_eq_str (get input "neighborhoodType") "industrial" then score + 20 else score in
  let score := if strict_eq_str (get input "neighborhoodType") "downtown" then score + 10 else score in
  let score := if strict_eq_str (get input "routeLighting") "poor" then score + 20 else score in
  let score := if strict_eq_str (get input "routeLighting") "mixed" then score + 10 else score in
  let score := clamp score 0 100 in
  let riskLevel := classify score in
  let reasoning := "Offline score computed from inputs: " +:+ inputsLine input in
  mkRiskResult score riskLevel reasoning
    (guardianMessageFor riskLevel) (saferActionFor riskLevel).

(** [server/index.js]: the same scorer under another name and with another
    opening of the [reasoning] line. *)
Definition fallbackRisk (input : gmap string jsval) : RiskResult :=
  let score := 0 in
  let score := if strict_eq_str (get input "timeOfDay") "night" then score + 25 else score in
  let score := if strict_eq_true (get input "userAlone") then score + 25 else score in
  let score := if strict_eq_str (get input "neighborhoodType") "industrial" then score + 20 else score in
  let score := if strict_eq_str (get input "neighborhoodType") "downtown" then score + 10 else score in
  let score := if strict_eq_str (get input "routeLighting") "poor" then score + 20 else score in
  let score := if strict_eq_str (get input "routeLighting") "mixed" then score + 10 else score in
  let score := clamp score 0 100 in
  let riskLevel := classify score in
  let reasoning := "Score computed from inputs: " +:+ inputsLine input in
  mkRiskResult score riskLevel reasoning
    (guardianMessageFor riskLevel) (saferActionFor riskLevel).


(** ** The emergency script generator *)

Definition baseChecklist : list string :=
  [ "Share your live location";
    "Move to a well-lit / populated area";
    "Stay on call with someone you trust" ].

(** The three template buckets of [buildEmergencyScript], as functions of the
    normalised level and of the two optional clauses. *)
Definition securityScript (level where_ contextBit : string) : EmergencyScript :=
  let text :=
    if String.eqb level "HIGH"
    then "Hi, I need help" +:+ where_ +:+ ". I feel unsafe" +:+ contextBit +:+
         ". Please advise immediate steps and, if possible, send assistance."
    else "Hi, I'm requesting safety support" +:+ where_ +:+ contextBit +:+
         ". Can you advise the safest route / next steps?" in
  mkEmergencyScript "Security message" text
    ("Share location with security" :: baseChecklist)
    [ "I can share my exact location now.";
      "I'm moving to a well-lit area.";
      "Please stay on the line with me." ].

Definition familyScript (level where_ contextBit : string) : EmergencyScript :=
  let text :=
    if String.eqb level "HIGH"
    then "Hey, I feel unsafe" +:+ where_ +:+ contextBit +:+
         ". Can you stay on call with me? If I don't reply in 5 minutes, please check on me."
    else "Hey, I'm heading somewhere" +:+ where_ +:+ contextBit +:+
         ". Can you stay available for a quick check-in?" in
  mkEmergencyScript "Family message" text
    ("Send location to family" :: baseChecklist)
    [ "I'm sharing my live location now.";
      "Can you call me for a few minutes?";
      "If I stop responding, please check on me." ].

Definition friendScript (level where_ contextBit : string) : EmergencyScript :=
  let text :=
    if String.eqb level "HIGH"
    then "Hey, I feel unsafe" +:+ where_ +:+ contextBit +:+
         ". Can you stay on call with me for 10 minutes? If I stop replying, please check on me."
    else if String.eqb level "MEDIUM"
    then "Hey, I'm a bit uncomfortable" +:+ where_ +:+ contextBit +:+
         ". Can you stay on standby and check in with me in a few minutes?"
    else "Hey! Quick check-in: I'm walking" +:+ where_ +:+ contextBit +:+
         ". I'll message when I arrive." in
  mkEmergencyScript "Quick message" text
    ("Send to a trusted friend" :: baseChecklist)
    [ "I'm sharing my live location now.";
      "Can you stay on call with me?";
      "I'll text you when I arrive safely." ].

(** [buildEmergencyScript({ riskLevel, contactType, locationText, extra })].
    Each of the four opening lines calls a string method on [x || default],
    which throws when [x] is truthy and not a string. *)
Definition buildEmergencyScript
    (riskLevel contactType locationText extra : jsval) : result EmergencyScript :=
  level ← string_method toUpperCase (js_or riskLevel (JStr "MEDIUM"));
  contact ← string_method toLowerCase (js_or contactType (JStr "friend"));
  loc ← string_method trim (js_or locationText (JStr ""));
  ctx ← string_method trim (js_or extra (JStr ""));
  let where_ := if negb (String.eqb loc "") then " near " +:+ loc else "" in
  let contextBit := if negb (String.eqb ctx "") then " (" +:+ ctx +:+ ")" else "" in
  if String.eqb contact "campus" || String.eqb contact "security"
  then mret (securityScript level where_ contextBit)
  else if String.eqb contact "family"
  then mret (familyScript level where_ contextBit)
  else mret (friendScript level where_ contextBit).

(** ** Phrase suggestions *)

Definition library : list string :=
  [ "Can you stay on call with me for a few minutes?";
    "I'm sharing my live location now.";
    "If I stop replying, please check on me.";
    "I'm moving to a well-lit area.";
    "Can you meet me at a nearby public place?";
    "Please call me when you can.";
    "I'm not sure this route is safe—I'm taking another path.";
    "If needed, can you contact campus security for me?";
    "I'm feeling uncomfortable and want to be extra careful." ].

(** [presageSuggest(prefixRaw)] on a string argument (the route rejects every
    other type), for which [String(prefixRaw || "")] is [prefixRaw]. *)
Definition presageSuggest (prefixRaw : string) : list string :=
  let prefix := toLowerCase (trim prefixRaw) in
  if String.eqb prefix "" then take 6 library
  else
    let starts := List.filter (λ s, startsWith (toLowerCase s) prefix) library in
    let includes_ :=
      List.filter (λ s, negb (array_includes starts s) && includes (toLowerCase s) prefix)
        library in
    take 8 (starts ++ includes_)%list.

(** ** Guardian validation *)

(** [/^\+?[0-9][0-9\s\-()]{6,}$/.test(v)] *)
Definition phone_tail_char (c : ascii) : bool :=
  is_digit c || is_space c || array_includes ["-"; "("; ")"] (String c "").

Definition phone_body (s : string) : bool :=
  match s with
  | String c rest =>
      is_digit c && string_forall phone_tail_char rest && (6 <=? String.length rest)%nat
  | EmptyString => false
  end.

Definition phone_regex_test (v : string) : bool :=
  phone_body v ||
  match v with
  | String "+" rest => phone_body rest
  | _ => false
  end.

(** [validateGuardianInput({ name, method, value })]: the error list starts
    empty and every failed test pushes its code. *)
Definition validateGuardianInput (name method value : jsval) : list string :=
  let errors : list string := [] in
  let errors :=
    if negb (truthy name) || (String.length (trim (toString name)) <? 1)%nat
    then push errors "name_required" else errors in
  let m := toLowerCase (toString (js_or method (JStr ""))) in
  let errors :=
    if negb (array_includes ["sms"; "email"] m)
    then push errors "method_must_be_sms_or_email" else errors in
  let v := trim (toString (js_or value (JStr ""))) in
  let errors :=
    if String.eqb v "" then push errors "value_required" else errors in
  let errors :=
    if String.eqb m "email" && negb (String.eqb v "") && negb (includes v "@")
    then push errors "email_invalid" else errors in
  let errors :=
    if String.eqb m "sms" && negb (String.eqb v "") && negb (phone_regex_test v)
    then push errors "phone_invalid" else errors in
  errors.

(** ** Emergency packages *)

Definition makeMapsLink (lat lng : jsval) : string :=
  "https://maps.google.com/?q=" +:+ encodeURIComponent (toString lat) +:+ "," +:+
  encodeURIComponent (toString lng).

Definition buildEmergencyMessages
    (riskLevel note : jsval) (guardians : list Guardian) (location : LastLocation)
    : EmergencyPackage :=
  let level := toUpperCase (toString (js_or riskLevel (JStr "HIGH"))) in
  let shareLink := makeMapsLink (lat location) (lng location) in
  let locLine := "My live location: " +:+ shareLink in
  let noteLine := if truthy note then "Note: " +:+ toString note else "" in
  let noteTail := if negb (String.eqb noteLine "") then " " +:+ noteLine else "" in
  let recommendedActions :=
    if String.eqb level "HIGH"
    then [ "Move to a well-lit area"; "Stay on call with someone you trust";
           "Share your live location"; "Seek help nearby" ]
    else if String.eqb level "MEDIUM"
    then [ "Stay in populated areas"; "Share your location"; "Avoid isolated routes" ]
    else [ "Keep awareness"; "Check in with a trusted person if needed" ] in
  let messages :=
    List.map (λ g,
      let to := value g in
      let method := method g in
      let text :=
        if String.eqb method "sms"
        then
          if String.eqb level "HIGH"
          then "I feel unsafe. Please call me now. " +:+ locLine +:+ noteTail
          else "Quick safety check-in. " +:+ locLine +:+ noteTail
        else
          if String.eqb level "HIGH"
          then "Hi " +:+ name g +:+ "," +:+ nl +:+ nl +:+ "I feel unsafe right now." +:+ nl +:+
               locLine +:+ nl +:+ noteLine +:+ nl +:+ nl +:+
               "Please call me. If I don’t respond, please check on me." +:+ nl
          else "Hi " +:+ name g +:+ "," +:+ nl +:+ nl +:+ "Quick check-in." +:+ nl +:+
               locLine +:+ nl +:+ noteLine +:+ nl +:+ nl +:+ "Thank you." +:+ nl in
      mkEmergencyMessage (id g) method to (trim text) shareLink) guardians in
  mkEmergencyPackage messages recommendedActions shareLink.

(** ** Process state and the JSON files *)

Record World : Type := mkWorld {
  MEMORY : Memory;
  memory_file : option Memory;
  guardians_file : option (list Guardian);
  location_file : option LastLocation
}.

Definition defaultMemory : Memory := mkMemory false JNull JNull None JNull.

(** The process at start-up: [MEMORY] is read from its file, or is the default. *)
Definition startup
    (mem : option Memory) (gs : option (list Guardian)) (loc : option LastLocation)
    : World :=
  mkWorld (default defaultMemory mem) mem gs loc.

(** A handler runs on the process state and leaves a new one. *)
Definition Handler (A : Type) : Type := World → A * World.

#[global] Instance Handler_ret : MRet Handler := λ A a w, (a, w).
#[global] Instance Handler_bind : MBind Handler :=
  λ A B k m w, let '(a, w') := m w in k a w'.

Definition saveMemory : Handler unit :=
  λ w, (tt, mkWorld (MEMORY w) (Some (MEMORY w)) (guardians_file w) (location_file w)).

Definition assignMemory (f : Memory → Memory) : Handler unit :=
  λ w, (tt, mkWorld (f (MEMORY w)) (memory_file w) (guardians_file w) (location_file w)).

Definition set_hasMemory (b : bool) (m : Memory) : Memory :=
  mkMemory b (lastLowScenarioId m) (lastSaferAction m) (lastGeneratedMessage m)
    (lastLocationTs m).

Definition set_lastLowScenarioId (v : jsval) (m : Memory) : Memory :=
  mkMemory (hasMemory m) v (lastSaferAction m) (lastGeneratedMessage m) (lastLocationTs m).

Definition set_lastSaferAction (v : jsval) (m : Memory) : Memory :=
  mkMemory (hasMemory m) (lastLowScenarioId m) v (lastGeneratedMessage m) (lastLocationTs m).

Definition readGuardians : Handler (list Guardian) :=
  λ w, (default [] (guardians_file w), w).

Definition writeGuardians (list : list Guardian) : Handler bool :=
  λ w, (true, mkWorld (MEMORY w) (memory_file w) (Some list) (location_file w)).

(** [typeof v === "number" ? v : null] *)
Definition number_or_null (v : jsval) : jsval :=
  match v with
  | JNum x => JNum x
  | _ => JNull
  end.

Definition readLastLocation : Handler LastLocation :=
  λ w,
    (match location_file w with
     | None => mkLastLocation JNull JNull JNull JNull
     | Some loc =>
         mkLastLocation (number_or_null (lat loc)) (number_or_null (lng loc))
           (number_or_null (accuracy loc)) (number_or_null (ts loc))
     end, w).

(** ** The HTTP handlers *)

(** A JSON response: its status and what its body carries.  [details] is empty
    for the error bodies that have no such field. *)
Inductive response (A : Type) : Type :=
  | Status200 (payload : A)
  | Status201 (payload : A)
  | Status400 (error : string) (details : list string).
#[global] Arguments Status200 {A} payload.
#[global] Arguments Status201 {A} payload.
#[global] Arguments Status400 {A} error details.

(** [`${prefix}_${Date.now()}_${Math.random().toString(16).slice(2, 8)}`],
    the clock reading and the random token given. *)
Definition makeId (prefix : string) (now : Z) (token : string) : string :=
  prefix +:+ "_" +:+ pretty now +:+ "_" +:+ token.

(** [POST /api/guardians] *)
Definition guardiansPost
    (body : gmap string jsval) (idClock : Z) (token : string) (createdClock : Z)
    : Handler (response Guardian) :=
  let guardian :=
    mkGuardian
      (makeId "g" idClock token)
      (trim (toString (js_or (get body "name") (JStr ""))))
      (toLowerCase (toString (js_or (get body "method") (JStr ""))))
      (trim (toString (js_or (get body "value") (JStr ""))))
      (trim (toString (js_or (get body "relationship") (JStr "friend"))))
      createdClock in
  let errors :=
    validateGuardianInput (JStr (name guardian)) (JStr (method guardian))
      (JStr (value guardian)) in
  if negb (length errors =? 0)%nat
  then mret (Status400 "invalid_guardian" errors)
  else
    list ← readGuardians;
    let list := push list guardian in
    writeGuardians list;;
    mret (Status201 guardian).

(** [DELETE /api/guardians/:id] *)
Definition guardiansDelete (idParam : string) : Handler (response Z) :=
  let id_ := trim (toString (js_or (JStr idParam) (JStr ""))) in
  if String.eqb id_ "" then mret (Status400 "missing_id" [])
  else
    list ← readGuardians;
    let next := List.filter (λ g, negb (String.eqb (id g) id_)) list in
    writeGuardians next;;
    mret (Status200 (Z.of_nat (length list) - Z.of_nat (length next))).

Definition required : list string :=
  [ "scenarioId"; "timeOfDay"; "userAlone"; "neighborhoodType"; "routeLighting" ].

(** [POST /api/risk-assess]; the payload is the engine's result and the
    [model] tag. *)
Definition riskAssess (body : gmap string jsval) : Handler (response (RiskResult * string)) :=
  match List.find (λ field, negb (has_field body field)) required with
  | Some field => mret (Status400 ("missing_" +:+ field) [])
  | None =>
      let out := offlineRiskEngine body in
      (if String.eqb (riskLevel out) "LOW"
       then
         assignMemory (set_hasMemory true);;
         assignMemory (set_lastLowScenarioId (js_or (get body "scenarioId") JNull));;
         assignMemory (set_lastSaferAction (js_or (JStr (saferAction out)) JNull));;
         saveMemory
       else mret tt);;
      mret (Status200 (out, "local-engine"))
  end.

Record PrepareReply : Type := mkPrepareReply {
  pr_riskLevel : string;
  pr_shareLink : string;
  pr_messages : list EmergencyMessage;
  pr_recommendedActions : list string;
  pr_hint : string
}.

(** [POST /api/emergency/prepare], the handler that goes through
    [readGuardians] and [readLastLocation]. *)
Definition emergencyPrepare (body : gmap string jsval) : Handler (response PrepareReply) :=
  let riskLevel := get body "riskLevel" in
  let note := get body "note" in
  if negb (truthy riskLevel) then mret (Status400 "missing_riskLevel" [])
  else
    guardians ← readGuardians;
    if (length guardians =? 0)%nat then mret (Status400 "no_guardians" [])
    else
      location ← readLastLocation;
      if negb (Number_isFinite (lat location)) || negb (Number_isFinite (lng location))
      then mret (Status400 "no_location" [])
      else
        let pack := buildEmergencyMessages riskLevel note guardians location in
        mret (Status200 (mkPrepareReply
          (toUpperCase (toString riskLevel))
          (shareLink pack) (messages pack) (recommendedActions pack)
          "Frontend should show Copy buttons + sms:/mailto: links (no real sending required).")).

End Rendering.

(** ** The specification's wording, for comparison with the code *)

(** Section 4.1: one weight per rule, added up. *)
Definition weight (applies : bool) (points : Z) : Z :=
  if applies then points else 0.

Definition weightSum (input : gmap string jsval) : Z :=
  weight (strict_eq_str (get input "timeOfDay") "night") 25 +
  weight (strict_eq_true (get input "userAlone")) 25 +
  weight (strict_eq_str (get input "neighborhoodType") "industrial") 20 +
  weight (strict_eq_str (get input "neighborhoodType") "downtown") 10 +
  weight (strict_eq_str (get input "routeLighting") "poor") 20 +
  weight (strict_eq_str (get input "routeLighting") "mixed") 10.

(** Section 4.2: the five validation rules of [add], each with the code it is
    reported under, read on the three textual fields. *)
Inductive rule : Type :=
  | NameRule
  | MethodRule
  | ValueRule
  | EmailRule
  | PhoneRule.

Definition error_code (r : rule) : string :=
  match r with
  | NameRule => "name_required"
  | MethodRule => "method_must_be_sms_or_email"
  | ValueRule => "value_required"
  | EmailRule => "email_invalid"
  | PhoneRule => "phone_invalid"
  end.

Definition violates (r : rule) (name method value : string) : bool :=
  match r with
  | NameRule => String.eqb (trim name) ""
  | MethodRule => negb (array_includes ["sms"; "email"] (toLowerCase method))
  | ValueRule => String.eqb (trim value) ""
  | EmailRule =>
      String.eqb (toLowerCase method) "email" && negb (includes (trim value) "@")
  | PhoneRule =>
      String.eqb (toLowerCase method) "sms" && negb (phone_regex_test (trim value))
  end.

(** The two rules about the format of the contact value. *)
Definition is_format_rule (r : rule) : bool :=
  match r with
  | EmailRule | PhoneRule => true
  | _ => false
  end.

(** Section 4.5: the suggestion rule as worded there, on the prefix as given. *)
Definition suggest_spec (prefix : string) : list string :=
  if String.eqb prefix "" then take 6 library
  else
    let p := toLowerCase prefix in
    let a := List.filter (λ s, startsWith (toLowerCase s) p) library in
    let b :=
      List.filter
        (λ s, negb (startsWith (toLowerCase s) p) && includes (toLowerCase s) p)
        library in
    take 8 (a ++ b)%list.

(** Request bodies used in the examples. *)
Definition scenario (sid : jsval) (timeOfDay : string) (userAlone : bool)
    (neighborhoodType routeLighting : string) : gmap string jsval :=
  <["scenarioId" := sid]>
    (<["timeOfDay" := JStr timeOfDay]>
       (<["userAlone" := JBool userAlone]>
          (<["neighborhoodType" := JStr neighborhoodType]>
             (<["routeLighting" := JStr routeLighting]> ∅)))).

(** A renderer for the examples, none of which prints a number. *)
Definition no_digits : float → string := λ _, "".

Definition preset_s1 : gmap string jsval :=
  scenario (JStr "s1") "day" false "downtown" "good".

Definition ann : Guardian := mkGuardian "g1" "Ann" "sms" "+90 555 000 0000" "friend" 1.
Definition bob : Guardian := mkGuardian "g2" "Bob" "email" "bob@example.org" "family" 2.

(** A field that is left out (or falsy) or holds a string: what the
    documented request shapes send. *)
Definition textual (v : jsval) : bool :=
  match v with
  | JStr _ => true
  | _ => negb (truthy v)
  end.

(** ** The rate limiter *)

Definition RATE_LIMIT_WINDOW_MS : Z := 60 * 1000.
Definition RATE_LIMIT_MAX : Z := 40.

(** The value kept per client in [rateLimitStore]. *)
Record RateEntry : Type := mkRateEntry {
  count : Z;
  start : Z
}.

(** What the middleware does with a request: hand it on, or answer 429. *)
Inductive verdict : Type :=
  | Next
  | RateLimited.

(** [s.split(",")[0]] *)
Fixpoint before_comma (s : string) : string :=
  match s with
  | EmptyString => EmptyString
  | String c s' =>
      if Ascii.eqb c "," then EmptyString else String c (before_comma s')
  end.

(** [getClientIp(req)], on the [x-forwarded-for] header and [req.ip], each a
    string or undefined. *)
Definition getClientIp (forwarded ip : option string) : option string :=
  match forwarded with
  | Some f => if negb (String.eqb f "") then Some (trim (before_comma f)) else ip
  | None => ip
  end.

(** [rateLimitMiddleware], the clock reading given.  Nothing in its [try]
    block can throw on these inputs. *)
Definition rateLimitMiddleware
    (forwarded ip : option string) (now : Z) (rateLimitStore : gmap string RateEntry)
    : verdict * gmap string RateEntry :=
  let ip :=
    match getClientIp forwarded ip with
    | Some a => if negb (String.eqb a "") then a else "unknown"
    | None => "unknown"
    end in
  match rateLimitStore !! ip with
  | None => (Next, <[ip := mkRateEntry 1 now]> rateLimitStore)
  | Some entry =>
      if now - start entry >? RATE_LIMIT_WINDOW_MS
      then (Next, <[ip := mkRateEntry 1 now]> rateLimitStore)
      else
        let entry := mkRateEntry (count entry + 1) (start entry) in
        let rateLimitStore := <[ip := entry]> rateLimitStore in
        if count entry >? RATE_LIMIT_MAX then (RateLimited, rateLimitStore)
        else (Next, rateLimitStore)
  end.

(** The body of the clean-up timer, the clock reading given. *)
Definition cleanup (now : Z) (rateLimitStore : gmap string RateEntry)
    : gmap string RateEntry :=
  filter (λ kv, ¬ (now - start (snd kv) > RATE_LIMIT_WINDOW_MS * 2)) rateLimitStore.

(** The same client sending one request per clock reading of [times]. *)
Fixpoint requests
    (forwarded ip : option string) (times : list Z) (store : gmap string RateEntry)
    : list verdict * gmap string RateEntry :=
  match times with
  | [] => ([], store)
  | now :: times' =>
      let '(v, store') := rateLimitMiddleware forwarded ip now store in
      let '(vs, store'') := requests forwarded ip times' store' in
      (v :: vs, store'')
  end.

(** ** Gemini model names ([server/index.js]) *)

Definition normalizeGeminiModelName (name : jsval) : result string :=
  if negb (truthy name) then Returns "gemini-2.0-flash"
  else
    match name with
    | JStr n => Returns (if startsWith n "models/" then n else "models/" +:+ n)
    | _ => TypeError
    end.

(** ** JSON numbers on disk *)

(** What [JSON.parse(JSON.stringify(v))] gives for a number or null: a
    non-finite number is written as [null], minus zero as [0], every other
    number reads back as itself. *)
Definition json_roundtrip (v : jsval) : jsval :=
  match v with
  | JNum x =>
      if is_nan x || is_infinity x then JNull
      else if PrimFloat.eqb x 0 then JNum 0
      else JNum x
  | _ => v
  end.

(** [a ?? b] *)
Definition js_nullish (a b : jsval) : jsval :=
  match a with
  | JUndefined | JNull => b
  | _ => a
  end.

Definition set_lastLocationTs (v : jsval) (m : Memory) : Memory :=
  mkMemory (hasMemory m) (lastLowScenarioId m) (lastSaferAction m)
    (lastGeneratedMessage m) v.

Definition set_lastGeneratedMessage (g : GeneratedMessage) (m : Memory) : Memory :=
  mkMemory (hasMemory m) (lastLowScenarioId m) (lastSaferAction m) (Some g)
    (lastLocationTs m).

(** [writeLastLocation(loc)]; the clock is read only for a missing [ts]. *)
Definition writeLastLocation (loc : LastLocation) (now : float) : Handler bool :=
  λ w,
    (true,
     mkWorld (MEMORY w) (memory_file w) (guardians_file w)
       (Some (mkLastLocation
                (json_roundtrip (lat loc)) (json_roundtrip (lng loc))
                (json_roundtrip (js_nullish (accuracy loc) JNull))
                (json_roundtrip (js_nullish (ts loc) (JNum now)))))).

(** A handler that throws is answered by the error middleware with status 500
    and [server_error]. *)
Inductive served (A : Type) : Type :=
  | Replied (r : response A)
  | ServerError.
#[global] Arguments Replied {A} r.
#[global] Arguments ServerError {A}.

Section MoreHandlers.

Variable Number_toString : float → string.

(** [Number(s)] for a string [s]: the parser of numeric literals. *)
Variable Number_parse : string → float.

(** [Number(v)] *)
Definition toNumber (v : jsval) : float :=
  match v with
  | JUndefined => nan
  | JNull => 0
  | JBool true => 1
  | JBool false => 0
  | JNum x => x
  | JStr s => Number_parse s
  end.

(** [GET /api/location] *)
Definition locationGet : Handler (response LastLocation) :=
  loc ← readLastLocation;
  mret (Status200 loc).

(** [POST /api/location]; [now] is the clock reading. *)
Definition locationPost (body : gmap string jsval) (now : float)
    : Handler (response LastLocation) :=
  let latN := toNumber (get body "lat") in
  let lngN := toNumber (get body "lng") in
  if negb (Number_isFinite (JNum latN)) || negb (Number_isFinite (JNum lngN))
  then mret (Status400 "invalid_lat_lng" [])
  else
    let saved :=
      mkLastLocation (JNum latN) (JNum lngN)
        (if Number_isFinite (JNum (toNumber (get body "accuracy")))
         then JNum (toNumber (get body "accuracy")) else JNull)
        (if Number_isFinite (JNum (toNumber (get body "ts")))
         then JNum (toNumber (get body "ts")) else JNum now) in
    writeLastLocation saved now;;
    assignMemory (set_lastLocationTs (ts saved));;
    assignMemory (set_hasMemory true);;
    saveMemory;;
    mret (Status200 saved).

(** [POST /api/emergency-script]; [now] is the clock reading. *)
Definition emergencyScriptPost (body : gmap string jsval) (now : Z)
    : Handler (served EmergencyScript) :=
  let riskLevel := get body "riskLevel" in
  let contactType := get body "contactType" in
  let locationText := get body "locationText" in
  let extra := get body "extra" in
  if negb (truthy riskLevel) then mret (Replied (Status400 "missing_riskLevel" []))
  else if negb (truthy contactType)
  then mret (Replied (Status400 "missing_contactType" []))
  else
    match buildEmergencyScript riskLevel contactType locationText extra with
    | TypeError => mret ServerError
    | Returns script =>
        assignMemory (set_lastGeneratedMessage
          (mkGeneratedMessage now
             (toUpperCase (toString Number_toString riskLevel))
             (toLowerCase (toString Number_toString contactType))
             (String.substring 0 140 (text script))));;
        assignMemory (set_hasMemory true);;
        saveMemory;;
        mret (Replied (Status200 script))
    end.

(** ** The rule-based chat *)

Record ChatReply : Type := mkChatReply {
  reply : string;
  intent : string
}.

(** [buildChatReply(message, context)], on the message and on
    [context?.riskLevel]. *)
Definition buildChatReply (message riskLevel : jsval) : ChatReply :=
  let msg := toLowerCase (toString Number_toString (js_or message (JStr ""))) in
  let level :=
    toUpperCase (toString Number_toString (js_or riskLevel (JStr "MEDIUM"))) in
  let hasFear :=
    includes msg "scared" || includes msg "unsafe" || includes msg "help" ||
    includes msg "follow" || includes msg "someone" || includes msg "panic" in
  if String.eqb (trim msg) ""
  then mkChatReply "Tell me what’s happening and I’ll guide you step by step." "ask_for_context"
  else if hasFear
  then
    if String.eqb level "HIGH" then mkChatReply
      "I’m here with you. Move to a well-lit, public place now. Call a trusted contact and share your live location. If you feel in immediate danger, call emergency services." "calm_and_direct"
    else if String.eqb level "MEDIUM" then mkChatReply
      "Okay. Stay aware and avoid isolated routes. Share your location with someone you trust and keep your phone ready. If the situation escalates, move to a public place." "calm_and_guided"
    else mkChatReply
      "Thanks for checking in. Keep a normal pace, stay in visible areas, and share your location if you want extra safety." "reassure"
  else if String.eqb level "HIGH" then mkChatReply
      "Given the risk level, choose a safer route: well-lit streets, populated areas, and keep a trusted person on call. You can generate an emergency message anytime." "high_risk_guidance"
  else mkChatReply
      "I can help you plan safer steps. If you share your situation (alone, time, lighting), I’ll suggest what to do next." "general_guidance".

End MoreHandlers.

(** ** Vocabulary of the further properties *)

Definition nonspace (c : ascii) : bool := negb (is_space c).

(** A digit of [Number.prototype.toString(16)]. *)
Definition is_hex (c : ascii) : bool :=
  is_digit c ||
  (let n := nat_of_ascii c in (97 <=? n)%nat && (n <=? 102)%nat).

(** The key under which [rateLimitMiddleware] files a request:
    [getClientIp(req) || "unknown"]. *)
Definition bucket (forwarded ip : option string) : string :=
  match getClientIp forwarded ip with
  | Some a => if negb (String.eqb a "") then a else "unknown"
  | None => "unknown"
  end.

(** What the validator lets into the collection, read on a stored record. *)
Definition valid_guardian (g : Guardian) : bool :=
  negb (String.eqb (name g) "") &&
  array_includes ["sms"; "email"] (method g) &&
  negb (String.eqb (value g) "") &&
  (if String.eqb (method g) "email" then includes (value g) "@" else true) &&
  (if String.eqb (method g) "sms" then phone_regex_test (value g) else true).

(** The words [buildChatReply] looks for. *)
Definition fear_keywords : list string :=
  [ "scared"; "unsafe"; "help"; "follow"; "someone"; "panic" ].

(** A parser for the examples, none of which converts a string. *)
Definition no_parse : string → float := λ _, nan.

(** * Properties *)

(** ** Strings and request bodies *)

Lemma get_insert_eq (body : gmap string jsval) (k : string) (v : jsval) :
  get (<[k := v]> body) k = v.
Proof. unfold get. by rewrite lookup_insert_eq. Qed.

Lemma get_insert_ne (body : gmap string jsval) (k k' : string) (v : jsval) :
  k ≠ k' → get (<[k := v]> body) k' = get body k'.
Proof. intros Hne. unfold get. by rewrite lookup_insert_ne. Qed.

Lemma strict_eq_str_true (v : jsval) (s : string) :
  strict_eq_str v s = true ↔ v = JStr s.
Proof.
  destruct v as [| |b|x|t]; simpl; try (split; [discriminate | discriminate]).
  rewrite String.eqb_eq. split; [intros -> | intros [= ->]]; reflexivity.
Qed.

Lemma strict_eq_str_exclusive (v : jsval) (s t : string) :
  s ≠ t → strict_eq_str v s && strict_eq_str v t = false.
Proof.
  intros Hne. apply not_true_is_false. rewrite andb_true_iff.
  intros [Hs Ht]. apply strict_eq_str_true in Hs, Ht. congruence.
Qed.

(** ** The risk engine *)

Lemma clamp_range (v lo hi : Z) : lo ≤ hi → lo ≤ clamp v lo hi ≤ hi.
Proof.
  intros Hle. unfold clamp.
  destruct (Z.ltb_spec v lo); [lia |].
  destruct (Z.gtb_spec v hi); lia.
Qed.

Lemma clamp_inside (v lo hi : Z) : lo ≤ v ≤ hi → clamp v lo hi = v.
Proof.
  intros Hin. unfold clamp.
  destruct (Z.ltb_spec v lo); [lia |].
  destruct (Z.gtb_spec v hi); lia.
Qed.

Lemma clamp_monotone (u v lo hi : Z) :
  lo ≤ hi → u ≤ v → clamp u lo hi ≤ clamp v lo hi.
Proof.
  intros Hle Huv. unfold clamp.
  destruct (Z.ltb_spec u lo), (Z.ltb_spec v lo),
    (Z.gtb_spec u hi), (Z.gtb_spec v hi); lia.
Qed.

Lemma weight_range (b : bool) (p : Z) : 0 ≤ p → 0 ≤ weight b p ≤ p.
Proof. destruct b; simpl; lia. Qed.

(** At most one of two weights keyed by different strings applies. *)
Lemma weight_exclusive (v : jsval) (s t : string) (p q : Z) :
  s ≠ t → 0 ≤ p → 0 ≤ q →
  0 ≤ weight (strict_eq_str v s) p + weight (strict_eq_str v t) q ≤ Z.max p q.
Proof.
  intros Hne Hp Hq. pose proof (strict_eq_str_exclusive v s t Hne) as Hex.
  destruct (strict_eq_str v s), (strict_eq_str v t); simpl in *;
    try discriminate; lia.
Qed.

Lemma weightSum_range (input : gmap string jsval) : 0 ≤ weightSum input ≤ 90.
Proof.
  unfold weightSum.
  pose proof (weight_range (strict_eq_str (get input "timeOfDay") "night") 25
                ltac:(lia)).
  pose proof (weight_range (strict_eq_true (get input "userAlone")) 25 ltac:(lia)).
  pose proof (weight_exclusive (get input "neighborhoodType")
                "industrial" "downtown" 20 10 ltac:(discriminate) ltac:(lia) ltac:(lia)).
  pose proof (weight_exclusive (get input "routeLighting")
                "poor" "mixed" 20 10 ltac:(discriminate) ltac:(lia) ltac:(lia)).
  lia.
Qed.

Section RiskEngineFacts.

Variable Number_toString : float → string.

Lemma offlineRiskEngine_score (input : gmap string jsval) :
  riskScore (offlineRiskEngine Number_toString input) = clamp (weightSum input) 0 100.
Proof.
  unfold offlineRiskEngine, weightSum, weight. cbn [riskScore]. f_equal.
  destruct (strict_eq_str (get input "timeOfDay") "night"),
    (strict_eq_true (get input "userAlone")),
    (strict_eq_str (get input "neighborhoodType") "industrial"),
    (strict_eq_str (get input "neighborhoodType") "downtown"),
    (strict_eq_str (get input "routeLighting") "poor"),
    (strict_eq_str (get input "routeLighting") "mixed"); reflexivity.
Qed.

Lemma fallbackRisk_score (input : gmap string jsval) :
  riskScore (fallbackRisk Number_toString input) = clamp (weightSum input) 0 100.
Proof.
  unfold fallbackRisk, weightSum, weight. cbn [riskScore]. f_equal.
  destruct (strict_eq_str (get input "timeOfDay") "night"),
    (strict_eq_true (get input "userAlone")),
    (strict_eq_str (get input "neighborhoodType") "industrial"),
    (strict_eq_str (get input "neighborhoodType") "downtown"),
    (strict_eq_str (get input "routeLighting") "poor"),
    (strict_eq_str (get input "routeLighting") "mixed"); reflexivity.
Qed.

Lemma offlineRiskEngine_level (input : gmap string jsval) :
  riskLevel (offlineRiskEngine Number_toString input) =
  classify (riskScore (offlineRiskEngine Number_toString input)).
Proof. reflexivity. Qed.


(** C2.  The classification follows the score by closed/half-open
    thresholds: at least 70 is HIGH, from 40 up to 69 is MEDIUM, below 40 is
    LOW; in particular 40 is MEDIUM, 39 is LOW, 70 is HIGH and 69 is MEDIUM. *)
Theorem riskLevel_thresholds (input : gmap string jsval) :
  riskLevel (offlineRiskEngine Number_toString input) =
    classify (riskScore (offlineRiskEngine Number_toString input)) ∧
  (∀ score : Z,
     (70 ≤ score → classify score = "HIGH") ∧
     (40 ≤ score < 70 → classify score = "MEDIUM") ∧
     (score < 40 → classify score = "LOW")) ∧
  classify 40 = "MEDIUM" ∧ classify 39 = "LOW" ∧
  classify 70 = "HIGH" ∧ classify 69 = "MEDIUM".
Proof.
  split; [apply offlineRiskEngine_level |].
  split; [| repeat split; reflexivity].
  intros score. unfold classify.
  destruct (Z.geb_spec score 70), (Z.geb_spec score 40); repeat split; intros; try lia;
    reflexivity.
Qed.

(** Two of the boundaries are reached by real scenarios: an industrial
    neighbourhood with poor lighting scores exactly 40, and the preset "s2"
    scores exactly 70. *)
Example boundary_40_is_MEDIUM :
  let r := offlineRiskEngine Number_toString
             (scenario (JStr "x") "day" false "industrial" "poor") in
  riskScore r = 40 ∧ riskLevel r = "MEDIUM".
Proof. split; reflexivity. Qed.

Example preset_s2_is_HIGH :
  let r := offlineRiskEngine Number_toString
             (scenario (JStr "s2") "night" true "residential" "poor") in
  riskScore r = 70 ∧ riskLevel r = "HIGH".
Proof. split; reflexivity. Qed.

(** The part of the sum that does not look at [routeLighting], and the part
    that does not look at [userAlone]. *)
Lemma weightSum_routeLighting (input : gmap string jsval) (v : jsval) :
  weightSum (<["routeLighting" := v]> input) =
  weightSum (<["routeLighting" := JStr "good"]> input) +
  weight (strict_eq_str v "poor") 20 + weight (strict_eq_str v "mixed") 10.
Proof.
  unfold weightSum.
  rewrite !get_insert_eq, !get_insert_ne by discriminate. simpl. lia.
Qed.

Lemma weightSum_userAlone (input : gmap string jsval) (v : jsval) :
  weightSum (<["userAlone" := v]> input) =
  weightSum (<["userAlone" := JBool false]> input) + weight (strict_eq_true v) 25.
Proof.
  unfold weightSum.
  rewrite !get_insert_eq, !get_insert_ne by discriminate. simpl. lia.
Qed.

(** C5.  All other fields fixed, the score never decreases when
    [routeLighting] goes from "good" to "mixed" to "poor", nor when
    [userAlone] goes from false to true. *)
Theorem riskScore_monotone (input : gmap string jsval) :
  let score := λ i, riskScore (offlineRiskEngine Number_toString i) in
  score (<["routeLighting" := JStr "good"]> input) ≤
    score (<["routeLighting" := JStr "mixed"]> input) ∧
  score (<["routeLighting" := JStr "mixed"]> input) ≤
    score (<["routeLighting" := JStr "poor"]> input) ∧
  score (<["userAlone" := JBool false]> input) ≤
    score (<["userAlone" := JBool true]> input).
Proof.
  cbv beta zeta. rewrite !offlineRiskEngine_score.
  repeat split; apply clamp_monotone; try lia.
  - rewrite (weightSum_routeLighting input (JStr "mixed")). simpl. lia.
  - rewrite (weightSum_routeLighting input (JStr "mixed")),
      (weightSum_routeLighting input (JStr "poor")). simpl. lia.
  - rewrite (weightSum_userAlone input (JBool true)). simpl. lia.
Qed.

(** C10.  The sum never exceeds 90 = 25 + 25 + 20 + 20, because one value
    cannot equal two different strings; the upper clamp is therefore never
    active, the score is the plain sum and lies in [0, 90], and 90 is
    reached. *)
Theorem riskScore_at_most_90 (input : gmap string jsval) :
  (riskScore (offlineRiskEngine Number_toString input) = weightSum input ∧
   0 ≤ riskScore (offlineRiskEngine Number_toString input) ≤ 90) ∧
  (riskScore (fallbackRisk Number_toString input) = weightSum input ∧
   0 ≤ riskScore (fallbackRisk Number_toString input) ≤ 90) ∧
  riskScore (offlineRiskEngine Number_toString
               (scenario (JStr "x") "night" true "industrial" "poor")) = 90.
Proof.
  rewrite offlineRiskEngine_score, fallbackRisk_score.
  pose proof (weightSum_range input) as Hr.
  rewrite clamp_inside by lia.
  repeat split; lia.
Qed.

End RiskEngineFacts.

(** ** Guardian validation *)

Lemma length_below_1 (s : string) : (String.length s <? 1)%nat = String.eqb s "".
Proof. destruct s; reflexivity. Qed.

(** [!name || String(name).trim().length < 1] on a string. *)
Lemma name_test_on_string (n : string) :
  negb (truthy (JStr n)) || (String.length (trim n) <? 1)%nat = String.eqb (trim n) "".
Proof.
  rewrite length_below_1. simpl. rewrite negb_involutive.
  destruct (String.eqb_spec n "") as [-> |]; reflexivity.
Qed.

(** A conditional [push] appends a list of at most one element. *)
Lemma push_if {A : Type} (b : bool) (l : list A) (x : A) :
  (if b then push l x else l) = (l ++ if b then [x] else [])%list.
Proof. destruct b; [reflexivity | by rewrite app_nil_r]. Qed.

Lemma In_singleton_if {A : Type} (b : bool) (x y : A) :
  In x (if b then [y] else []) ↔ b = true ∧ y = x.
Proof. destruct b; simpl; intuition discriminate. Qed.

Section GuardianFacts.

Variable Number_toString : float → string.

Lemma toString_or_string (s d : string) :
  d = "" → toString Number_toString (js_or (JStr s) (JStr d)) = s.
Proof.
  intros ->. unfold js_or. simpl.
  destruct (String.eqb_spec s "") as [-> |]; reflexivity.
Qed.

(** On three strings the validator is the concatenation, in the order of the
    source, of what each test contributes. *)
Lemma validateGuardianInput_on_strings (name method value : string) :
  validateGuardianInput Number_toString (JStr name) (JStr method) (JStr value) =
  ((if violates NameRule name method value then ["name_required"] else []) ++
   (if violates MethodRule name method value then ["method_must_be_sms_or_email"] else []) ++
   (if violates ValueRule name method value then ["value_required"] else []) ++
   (if violates EmailRule name method value && negb (String.eqb (trim value) "")
    then ["email_invalid"] else []) ++
   (if violates PhoneRule name method value && negb (String.eqb (trim value) "")
    then ["phone_invalid"] else []))%list.
Proof.
  unfold validateGuardianInput, violates.
  rewrite name_test_on_string, !toString_or_string by reflexivity.
  rewrite !push_if. simpl toString.
  destruct (String.eqb (trim name) ""),
    (array_includes ["sms"; "email"] (toLowerCase method)),
    (String.eqb (toLowerCase method) "email"),
    (String.eqb (toLowerCase method) "sms"),
    (String.eqb (trim value) ""),
    (includes (trim value) "@"),
    (phone_regex_test (trim value)); reflexivity.
Qed.

Lemma validateGuardianInput_reports (name method value : string) (r : rule) :
  In (error_code r)
     (validateGuardianInput Number_toString (JStr name) (JStr method) (JStr value)) ↔
  violates r name method value = true ∧
  (is_format_rule r = true → trim value ≠ "").
Proof.
  rewrite validateGuardianInput_on_strings, !in_app_iff, !In_singleton_if.
  rewrite !andb_true_iff, !negb_true_iff, String.eqb_neq.
  destruct r; cbn [error_code is_format_rule];
    intuition (discriminate || eauto).
Qed.

Lemma validateGuardianInput_only_codes (name method value : string) (e : string) :
  In e (validateGuardianInput Number_toString (JStr name) (JStr method) (JStr value)) →
  ∃ r, e = error_code r.
Proof.
  rewrite validateGuardianInput_on_strings.
  rewrite !in_app_iff, !In_singleton_if. intros H.
  decompose [or and] H; subst e;
    first [ by exists NameRule | by exists MethodRule | by exists ValueRule
          | by exists EmailRule | by exists PhoneRule ].
Qed.

Lemma guardiansPost_rejects
    (body : gmap string jsval) (idClock : Z) (token : string) (createdClock : Z)
    (w : World) :
  let errors :=
    validateGuardianInput Number_toString
      (JStr (trim (toString Number_toString (js_or (get body "name") (JStr "")))))
      (JStr (toLowerCase (toString Number_toString (js_or (get body "method") (JStr "")))))
      (JStr (trim (toString Number_toString (js_or (get body "value") (JStr ""))))) in
  errors ≠ [] →
  guardiansPost Number_toString body idClock token createdClock w =
  (Status400 "invalid_guardian" errors, w).
Proof.
  intros errors Hne. unfold guardiansPost. cbn [name method value].
  fold errors. destruct errors; [congruence | reflexivity].
Qed.


End GuardianFacts.


(** ** The handlers and the process state *)

Lemma filter_split_length {A : Type} (p : A → bool) (l : list A) :
  (length (List.filter p l) + length (List.filter (λ x, negb (p x)) l))%nat = length l.
Proof.
  induction l as [| a l IH]; [reflexivity |].
  simpl. destruct (p a); simpl; lia.
Qed.

Lemma filter_none {A : Type} (p : A → bool) (l : list A) :
  (∀ x, In x l → p x = false) → List.filter p l = [].
Proof.
  induction l as [| a l IH]; [reflexivity |].
  intros H. simpl. rewrite (H a) by (left; reflexivity).
  apply IH. intros x Hx. apply H. right. exact Hx.
Qed.

Lemma filter_all {A : Type} (p : A → bool) (l : list A) :
  (∀ x, In x l → p x = true) → List.filter p l = l.
Proof.
  induction l as [| a l IH]; [reflexivity |].
  intros H. simpl. rewrite (H a) by (left; reflexivity).
  f_equal. apply IH. intros x Hx. apply H. right. exact Hx.
Qed.

(** Records whose [id] is [target], when [target] is no record's [id]. *)
Lemma no_match_when_absent (target : string) (l : list Guardian) :
  ¬ In target (List.map id l) →
  ∀ g, In g l → String.eqb (id g) target = false.
Proof.
  intros Hnot g Hg. apply String.eqb_neq. intros Heq.
  apply Hnot. rewrite <- Heq. apply in_map. exact Hg.
Qed.

(** With pairwise different ids at most one record matches. *)
Lemma at_most_one_match (target : string) (l : list Guardian) :
  List.NoDup (List.map id l) →
  (length (List.filter (λ g, String.eqb (id g) target) l) ≤ 1)%nat.
Proof.
  induction l as [| g l IH]; simpl; [lia |].
  intros Hnd. apply List.NoDup_cons_iff in Hnd as [Hnotin Hnd].
  destruct (String.eqb_spec (id g) target) as [Heq | Hne].
  - rewrite filter_none; [simpl; lia |].
    apply no_match_when_absent. rewrite <- Heq. exact Hnotin.
  - apply IH. exact Hnd.
Qed.

Lemma find_none_forallb {A : Type} (p : A → bool) (l : list A) :
  forallb p l = true → List.find (λ x, negb (p x)) l = None.
Proof.
  induction l as [| a l IH]; [reflexivity |].
  simpl. intros H. apply andb_true_iff in H as [Ha Hl].
  rewrite Ha. simpl. apply IH. exact Hl.
Qed.

Lemma saferActionFor_truthy (level : string) :
  js_or (JStr (saferActionFor level)) JNull = JStr (saferActionFor level).
Proof.
  unfold saferActionFor.
  destruct (String.eqb level "HIGH"), (String.eqb level "MEDIUM"); reflexivity.
Qed.

Lemma classify_cases (score : Z) :
  classify score = "LOW" ∨ classify score = "MEDIUM" ∨ classify score = "HIGH".
Proof.
  unfold classify. destruct (score >=? 70), (score >=? 40); auto.
Qed.

Section HandlerFacts.

Variable Number_toString : float → string.




End HandlerFacts.







(** ** Phrase suggestions *)

Lemma toLowerCase_eqb_empty (s : string) :
  String.eqb (toLowerCase s) "" = String.eqb s "".
Proof. destruct s; reflexivity. Qed.

Lemma toUpperCase_eqb_empty (s : string) :
  String.eqb (toUpperCase s) "" = String.eqb s "".
Proof. destruct s; reflexivity. Qed.

(** Membership in a filtered array, for an element of the array, is the
    filter's test. *)
Lemma array_includes_filter (p : string → bool) (l : list string) (s : string) :
  In s l → array_includes (List.filter p l) s = p s.
Proof.
  intros Hs. apply eq_true_iff_eq. unfold array_includes.
  rewrite existsb_exists. split.
  - intros (x & Hx & Heq). apply String.eqb_eq in Heq. subst x.
    apply filter_In in Hx. tauto.
  - intros Hp. exists s. split; [| apply String.eqb_refl].
    apply filter_In. tauto.
Qed.

Lemma presageSuggest_trimmed (prefixRaw : string) :
  presageSuggest prefixRaw = suggest_spec (trim prefixRaw).
Proof.
  unfold presageSuggest, suggest_spec. cbv zeta.
  rewrite toLowerCase_eqb_empty.
  destruct (String.eqb (trim prefixRaw) ""); [reflexivity |].
  do 2 f_equal. apply filter_ext_in. intros s Hs.
  rewrite array_includes_filter by exact Hs. reflexivity.
Qed.



(** ** The emergency script generator *)

Lemma upper_char_idem (c : ascii) : upper_char (upper_char c) = upper_char c.
Proof. destruct c as [[] [] [] [] [] [] [] []]; reflexivity. Qed.

Lemma lower_char_idem (c : ascii) : lower_char (lower_char c) = lower_char c.
Proof. destruct c as [[] [] [] [] [] [] [] []]; reflexivity. Qed.

Lemma toUpperCase_idem (s : string) : toUpperCase (toUpperCase s) = toUpperCase s.
Proof.
  induction s as [| c s IH]; [reflexivity |].
  unfold toUpperCase in *. simpl. rewrite upper_char_idem, IH. reflexivity.
Qed.

Lemma toLowerCase_idem (s : string) : toLowerCase (toLowerCase s) = toLowerCase s.
Proof.
  induction s as [| c s IH]; [reflexivity |].
  unfold toLowerCase in *. simpl. rewrite lower_char_idem, IH. reflexivity.
Qed.

(** [s || d] on two strings. *)
Lemma js_or_string (s d : string) :
  js_or (JStr s) (JStr d) = JStr (if String.eqb s "" then d else s).
Proof. unfold js_or. simpl. destruct (String.eqb s ""); reflexivity. Qed.

Lemma js_or_falsy (v d : jsval) : truthy v = false → js_or v d = d.
Proof. intros H. unfold js_or. rewrite H. reflexivity. Qed.

Lemma js_or_textual (v : jsval) (d : string) :
  textual v = true → ∃ s, js_or v (JStr d) = JStr s.
Proof.
  destruct v as [| | b | x | s]; simpl; intros H.
  - by exists d.
  - by exists d.
  - apply negb_true_iff in H. exists d. by apply js_or_falsy.
  - apply negb_true_iff in H. exists d. by apply js_or_falsy.
  - rewrite js_or_string. eauto.
Qed.

(** The level a riskLevel string is read as, and the same for the contact. *)
Lemma level_of_string (rl : string) :
  string_method toUpperCase (js_or (JStr rl) (JStr "MEDIUM")) =
  string_method toUpperCase (js_or (JStr (toUpperCase rl)) (JStr "MEDIUM")).
Proof.
  rewrite !js_or_string, toUpperCase_eqb_empty.
  destruct (String.eqb rl ""); simpl; [reflexivity |].
  by rewrite toUpperCase_idem.
Qed.

Lemma contact_of_string (ct : string) :
  string_method toLowerCase (js_or (JStr ct) (JStr "friend")) =
  string_method toLowerCase (js_or (JStr (toLowerCase ct)) (JStr "friend")).
Proof.
  rewrite !js_or_string, toLowerCase_eqb_empty.
  destruct (String.eqb ct ""); simpl; [reflexivity |].
  by rewrite toLowerCase_idem.
Qed.

(** A level that is neither HIGH nor MEDIUM selects, in every bucket, the
    variant that LOW selects. *)
Lemma scripts_of_other_level (level where_ contextBit : string) :
  level ≠ "HIGH" → level ≠ "MEDIUM" →
  securityScript level where_ contextBit = securityScript "LOW" where_ contextBit ∧
  familyScript level where_ contextBit = familyScript "LOW" where_ contextBit ∧
  friendScript level where_ contextBit = friendScript "LOW" where_ contextBit.
Proof.
  intros Hh Hm. apply String.eqb_neq in Hh, Hm.
  unfold securityScript, familyScript, friendScript.
  rewrite Hh, Hm. repeat split; reflexivity.
Qed.

Lemma unrecognized_level_as_LOW (rl : string) (ct loc ex : jsval) :
  rl ≠ "" → toUpperCase rl ≠ "HIGH" → toUpperCase rl ≠ "MEDIUM" →
  buildEmergencyScript (JStr rl) ct loc ex =
  buildEmergencyScript (JStr "LOW") ct loc ex.
Proof.
  intros Hne Hh Hm. unfold buildEmergencyScript.
  rewrite !js_or_string. apply String.eqb_neq in Hne. rewrite Hne.
  change (String.eqb "LOW" "") with false.
  cbn [string_method]. change (toUpperCase "LOW") with "LOW".
  unfold mbind, result_mbind, result_bind.
  destruct (string_method toLowerCase (js_or ct (JStr "friend"))) as [contact |];
    [| reflexivity].
  destruct (string_method trim (js_or loc (JStr ""))) as [l |]; [| reflexivity].
  destruct (string_method trim (js_or ex (JStr ""))) as [c |]; [| reflexivity].
  cbv zeta.
  destruct (scripts_of_other_level (toUpperCase rl)
              (if negb (String.eqb l "") then " near " +:+ l else "")
              (if negb (String.eqb c "") then " (" +:+ c +:+ ")" else "") Hh Hm)
    as (-> & -> & ->).
  reflexivity.
Qed.

Lemma other_contact_as_friend (rl : jsval) (ct : string) (loc ex : jsval) :
  ct ≠ "" →
  toLowerCase ct ≠ "campus" → toLowerCase ct ≠ "security" →
  toLowerCase ct ≠ "family" →
  buildEmergencyScript rl (JStr ct) loc ex =
  buildEmergencyScript rl (JStr "friend") loc ex.
Proof.
  intros Hne Hc Hs Hf. unfold buildEmergencyScript.
  rewrite !js_or_string. apply String.eqb_neq in Hne, Hc, Hs, Hf. rewrite Hne.
  change (String.eqb "friend" "") with false.
  cbn [string_method]. change (toLowerCase "friend") with "friend".
  unfold mbind, result_mbind, result_bind.
  destruct (string_method toUpperCase (js_or rl (JStr "MEDIUM"))) as [level |];
    [| reflexivity].
  destruct (string_method trim (js_or loc (JStr ""))) as [l |]; [| reflexivity].
  destruct (string_method trim (js_or ex (JStr ""))) as [c |]; [| reflexivity].
  cbv zeta. rewrite Hc, Hs, Hf. reflexivity.
Qed.

Lemma buildEmergencyScript_returns (rl ct loc ex : jsval) :
  textual rl = true → textual ct = true → textual loc = true → textual ex = true →
  ∃ script, buildEmergencyScript rl ct loc ex = Returns script.
Proof.
  intros Hrl Hct Hloc Hex. unfold buildEmergencyScript.
  destruct (js_or_textual rl "MEDIUM" Hrl) as [s1 ->].
  destruct (js_or_textual ct "friend" Hct) as [s2 ->].
  destruct (js_or_textual loc "" Hloc) as [s3 ->].
  destruct (js_or_textual ex "" Hex) as [s4 ->].
  cbn [string_method]. unfold mbind, result_mbind, result_bind, mret, result_ret.
  cbv zeta.
  destruct (String.eqb (toLowerCase s2) "campus" || String.eqb (toLowerCase s2) "security");
    [eauto |].
  destruct (String.eqb (toLowerCase s2) "family"); eauto.
Qed.



(** A riskLevel that is truthy and not a string makes [.toUpperCase()]
    throw. *)
Example numeric_riskLevel_throws :
  buildEmergencyScript (JNum 5) (JStr "friend") JUndefined JUndefined = TypeError.
Proof. reflexivity. Qed.

(** ** Remarks on the guardian collection *)

(** Nothing in [POST /api/guardians] compares a new id with the stored ones:
    two additions at the same clock reading with the same random token store
    the same id twice, and removing it then reports 2. *)
Example same_id_twice_removes_two :
  let body :=
    <["name" := JStr "Ann"]>
      (<["method" := JStr "email"]> (<["value" := JStr "ann@example.org"]> ∅)) in
  let w1 := snd (guardiansPost no_digits body 1700000000000 "a1b2c3" 1700000000000
                   (startup None None None)) in
  let w2 := snd (guardiansPost no_digits body 1700000000000 "a1b2c3" 1700000000000 w1) in
  List.map id (fst (readGuardians w2)) =
    ["g_1700000000000_a1b2c3"; "g_1700000000000_a1b2c3"] ∧
  fst (guardiansDelete no_digits "g_1700000000000_a1b2c3" w2) = Status200 2.
Proof. split; vm_compute; reflexivity. Qed.

(** * Further properties of the code *)

(** ** More on strings *)

Lemma startsWith_nil (s : string) : startsWith s "" = true.
Proof. destruct s; reflexivity. Qed.

Lemma startsWith_cons (c d : ascii) (s p : string) :
  startsWith (String c s) (String d p) = true ↔ d = c ∧ startsWith s p = true.
Proof.
  unfold startsWith. simpl. destruct (ascii_dec d c) as [-> | Hne].
  - tauto.
  - split; [discriminate | tauto].
Qed.

Lemma startsWith_app (s p b : string) :
  startsWith s p = true → startsWith (s +:+ b) p = true.
Proof.
  revert s. induction p as [| d p IH]; intros s H.
  - apply startsWith_nil.
  - destruct s as [| c s]; [discriminate H |].
    apply startsWith_cons in H as [-> H]. simpl.
    apply startsWith_cons. split; [reflexivity | apply IH, H].
Qed.

Lemma startsWith_self_app (p b : string) : startsWith (p +:+ b) p = true.
Proof.
  induction p as [| c p IH]; [apply startsWith_nil |].
  simpl. apply startsWith_cons. tauto.
Qed.

Lemma includes_unfold (s p : string) :
  includes s p =
  startsWith s p ||
  match s with
  | EmptyString => false
  | String _ s' => includes s' p
  end.
Proof. destruct s; reflexivity. Qed.

Lemma includes_cons (c : ascii) (s p : string) :
  includes s p = true → includes (String c s) p = true.
Proof. intros H. rewrite includes_unfold, H. apply orb_true_r. Qed.

Lemma includes_of_startsWith (s p : string) :
  startsWith s p = true → includes s p = true.
Proof. intros H. rewrite includes_unfold, H. reflexivity. Qed.

Lemma includes_app_r (a s p : string) :
  includes s p = true → includes (a +:+ s) p = true.
Proof.
  intros H. induction a as [| c a IH]; [exact H |].
  simpl String.append. apply includes_cons, IH.
Qed.

Lemma includes_app_l (s b p : string) :
  includes s p = true → includes (s +:+ b) p = true.
Proof.
  induction s as [| c s IH]; intros H.
  - rewrite includes_unfold, orb_false_r in H.
    apply includes_of_startsWith. apply (startsWith_app "" p b H).
  - rewrite includes_unfold in H. apply orb_true_iff in H as [H | H].
    + apply includes_of_startsWith. apply (startsWith_app (String c s) p b H).
    + simpl String.append. apply includes_cons, IH, H.
Qed.

Lemma includes_self_app (p b : string) : includes (p +:+ b) p = true.
Proof. apply includes_of_startsWith, startsWith_self_app. Qed.

Lemma includes_nil_false (p : string) : p ≠ "" → includes "" p = false.
Proof. destruct p; [congruence | reflexivity]. Qed.

Lemma string_forall_app (f : ascii → bool) (a b : string) :
  string_forall f (a +:+ b) = string_forall f a && string_forall f b.
Proof.
  induction a as [| c a IH]; [reflexivity |].
  simpl. rewrite IH. apply andb_assoc.
Qed.

(** ** More on [trim] *)

Lemma trimEnd_fixed (s : string) : string_forall nonspace s = true → trimEnd s = s.
Proof.
  induction s as [| c s IH]; [reflexivity |].
  simpl. intros H. apply andb_true_iff in H as [Hc Hs].
  unfold nonspace in Hc. apply negb_true_iff in Hc.
  rewrite Hc, (IH Hs). reflexivity.
Qed.

Lemma trimEnd_app (a b : string) :
  trimEnd b = b → b ≠ "" → trimEnd (a +:+ b) = a +:+ b.
Proof.
  intros Hb Hne. induction a as [| c a IH]; [exact Hb |].
  simpl. rewrite IH.
  destruct (String.eqb_spec (a +:+ b) "") as [Hnil | _].
  - destruct a; simpl in Hnil; [contradiction | discriminate].
  - rewrite andb_false_r. reflexivity.
Qed.

Lemma trimEnd_idem (s : string) : trimEnd (trimEnd s) = trimEnd s.
Proof.
  induction s as [| c s IH]; [reflexivity |].
  simpl. destruct (is_space c && String.eqb (trimEnd s) "") eqn:E; [reflexivity |].
  simpl. rewrite IH, E. reflexivity.
Qed.

Lemma trimStart_head (s : string) :
  trimStart s = "" ∨ ∃ c r, trimStart s = String c r ∧ is_space c = false.
Proof.
  induction s as [| c s IH]; [left; reflexivity |].
  simpl. destruct (is_space c) eqn:E; [exact IH |].
  right. eauto.
Qed.

Lemma trim_idem (s : string) : trim (trim s) = trim s.
Proof.
  unfold trim. destruct (trimStart_head s) as [-> | (c & r & -> & Hc)];
    [reflexivity |].
  simpl. rewrite Hc. simpl. rewrite Hc. simpl.
  rewrite trimEnd_idem, Hc. reflexivity.
Qed.

Lemma trim_eq_empty_of_empty (s : string) : s = "" → trim s = "".
Proof. intros ->. reflexivity. Qed.

(** [trim] keeps every occurrence of a word without blanks. *)
Lemma startsWith_trimEnd (s p : string) :
  string_forall nonspace p = true → p ≠ "" →
  startsWith s p = true → startsWith (trimEnd s) p = true.
Proof.
  revert s. induction p as [| d p IH]; intros s Hp Hne H; [congruence |].
  destruct s as [| c s]; [discriminate H |].
  apply startsWith_cons in H as [-> H].
  simpl in Hp. apply andb_true_iff in Hp as [Hc Hp].
  unfold nonspace in Hc. apply negb_true_iff in Hc.
  simpl. rewrite Hc. simpl. apply startsWith_cons. split; [reflexivity |].
  destruct p as [| e p]; [apply startsWith_nil |].
  apply IH; [exact Hp | discriminate | exact H].
Qed.

Lemma includes_trimEnd (s p : string) :
  string_forall nonspace p = true → p ≠ "" →
  includes s p = true → includes (trimEnd s) p = true.
Proof.
  intros Hp Hne. induction s as [| c s IH]; intros H.
  - rewrite includes_nil_false in H by exact Hne. discriminate.
  - rewrite includes_unfold in H. apply orb_true_iff in H as [H | H].
    + apply includes_of_startsWith.
      apply (startsWith_trimEnd (String c s) p Hp Hne H).
    + specialize (IH H). simpl.
      destruct (String.eqb_spec (trimEnd s) "") as [Hnil | _].
      * rewrite Hnil, includes_nil_false in IH by exact Hne. discriminate.
      * rewrite andb_false_r. apply includes_cons, IH.
Qed.

Lemma includes_trimStart (s p : string) :
  string_forall nonspace p = true → p ≠ "" →
  includes s p = true → includes (trimStart s) p = true.
Proof.
  intros Hp Hne. induction s as [| c s IH]; intros H; [exact H |].
  simpl. destruct (is_space c) eqn:Hc; [| exact H].
  rewrite includes_unfold in H. apply orb_true_iff in H as [H | H]; [| exact (IH H)].
  destruct p as [| d p]; [congruence |].
  apply startsWith_cons in H as [-> _].
  simpl in Hp. unfold nonspace in Hp. rewrite Hc in Hp. discriminate.
Qed.

Lemma includes_trim (s p : string) :
  string_forall nonspace p = true → p ≠ "" →
  includes s p = true → includes (trim s) p = true.
Proof.
  intros Hp Hne H. unfold trim.
  apply includes_trimEnd, includes_trimStart; assumption.
Qed.

(** ** The rate limiter *)

Lemma rateLimit_fresh (forwarded ip : option string) (now : Z)
    (store : gmap string RateEntry) :
  store !! bucket forwarded ip = None →
  rateLimitMiddleware forwarded ip now store =
  (Next, <[bucket forwarded ip := mkRateEntry 1 now]> store).
Proof.
  intros H. unfold rateLimitMiddleware. fold (bucket forwarded ip).
  rewrite H. reflexivity.
Qed.

Lemma rateLimit_expired (forwarded ip : option string) (now : Z)
    (store : gmap string RateEntry) (e : RateEntry) :
  store !! bucket forwarded ip = Some e →
  now - start e > RATE_LIMIT_WINDOW_MS →
  rateLimitMiddleware forwarded ip now store =
  (Next, <[bucket forwarded ip := mkRateEntry 1 now]> store).
Proof.
  intros H Hlate. unfold rateLimitMiddleware. fold (bucket forwarded ip).
  rewrite H. destruct (Z.gtb_spec (now - start e) RATE_LIMIT_WINDOW_MS); [reflexivity | lia].
Qed.

Lemma rateLimit_within (forwarded ip : option string) (now : Z)
    (store : gmap string RateEntry) (e : RateEntry) :
  store !! bucket forwarded ip = Some e →
  now - start e ≤ RATE_LIMIT_WINDOW_MS →
  rateLimitMiddleware forwarded ip now store =
  (if count e + 1 >? RATE_LIMIT_MAX then RateLimited else Next,
   <[bucket forwarded ip := mkRateEntry (count e + 1) (start e)]> store).
Proof.
  intros H Hin. unfold rateLimitMiddleware. fold (bucket forwarded ip).
  rewrite H. destruct (Z.gtb_spec (now - start e) RATE_LIMIT_WINDOW_MS); [lia |].
  cbn [count start]. destruct (count e + 1 >? RATE_LIMIT_MAX); reflexivity.
Qed.

(** Requests inside the window of an entry that already counts [c]. *)
Lemma requests_within_window (forwarded ip : option string) (t0 : Z) (times : list Z) :
  Forall (λ t, t - t0 ≤ RATE_LIMIT_WINDOW_MS) times →
  ∀ (c : Z) (store : gmap string RateEntry),
    0 ≤ c →
    store !! bucket forwarded ip = Some (mkRateEntry c t0) →
    fst (requests forwarded ip times store) =
      (replicate (length times `min` Z.to_nat (RATE_LIMIT_MAX - c)) Next ++
       replicate (length times - Z.to_nat (RATE_LIMIT_MAX - c)) RateLimited)%list ∧
    snd (requests forwarded ip times store) !! bucket forwarded ip =
      Some (mkRateEntry (c + Z.of_nat (length times)) t0).
Proof.
  induction 1 as [| t times Ht _ IH]; intros c store Hc Hentry.
  - simpl. split; [reflexivity |]. rewrite Hentry. do 2 f_equal. lia.
  - simpl requests.
    rewrite (rateLimit_within forwarded ip t store _ Hentry) by exact Ht.
    cbn [count start].
    destruct (IH (c + 1)
                (<[bucket forwarded ip := mkRateEntry (c + 1) t0]> store)
                ltac:(lia) ltac:(apply lookup_insert_eq)) as [IHv IHs].
    destruct (requests forwarded ip times
                (<[bucket forwarded ip := mkRateEntry (c + 1) t0]> store))
      as [vs store''] eqn:E.
    simpl in IHv, IHs. simpl. split.
    + rewrite IHv. unfold RATE_LIMIT_MAX in *.
      destruct (Z.gtb_spec (c + 1) 40) as [Hover | Hunder].
      * replace (Z.to_nat (40 - c)) with 0%nat by lia.
        replace (Z.to_nat (40 - (c + 1))) with 0%nat by lia.
        rewrite !Nat.min_0_r, !Nat.sub_0_r. reflexivity.
      * replace (Z.to_nat (40 - c)) with (S (Z.to_nat (40 - (c + 1)))) by lia.
        reflexivity.
    + rewrite IHs. do 2 f_equal. lia.
Qed.

(** X1.  A client that has no entry and sends [n] requests, the later ones
    no more than a window after the first, gets the first 40 through and
    every further one answered with 429. *)
Theorem burst_is_cut_after_40
    (forwarded ip : option string) (t0 : Z) (times : list Z)
    (store : gmap string RateEntry) :
  store !! bucket forwarded ip = None →
  Forall (λ t, t - t0 ≤ RATE_LIMIT_WINDOW_MS) times →
  fst (requests forwarded ip (t0 :: times) store) =
  (replicate (S (length times) `min` 40) Next ++
   replicate (S (length times) - 40) RateLimited)%list.
Proof.
  intros Hnone Hin. simpl requests.
  rewrite (rateLimit_fresh forwarded ip t0 store Hnone).
  destruct (requests_within_window forwarded ip t0 times Hin 1
              (<[bucket forwarded ip := mkRateEntry 1 t0]> store)
              ltac:(lia) ltac:(apply lookup_insert_eq)) as [Hv _].
  destruct (requests forwarded ip times
              (<[bucket forwarded ip := mkRateEntry 1 t0]> store)) as [vs store'].
  simpl in Hv. simpl. rewrite Hv.
  change (Z.to_nat (RATE_LIMIT_MAX - 1)) with 39%nat. reflexivity.
Qed.

Lemma verdict_reads_own_entry (forwarded ip : option string) (now : Z)
    (store1 store2 : gmap string RateEntry) :
  store1 !! bucket forwarded ip = store2 !! bucket forwarded ip →
  fst (rateLimitMiddleware forwarded ip now store1) =
  fst (rateLimitMiddleware forwarded ip now store2) ∧
  snd (rateLimitMiddleware forwarded ip now store1) !! bucket forwarded ip =
  snd (rateLimitMiddleware forwarded ip now store2) !! bucket forwarded ip.
Proof.
  intros H. unfold rateLimitMiddleware. fold (bucket forwarded ip).
  rewrite H. destruct (store2 !! bucket forwarded ip) as [e |].
  - destruct (now - start e >? RATE_LIMIT_WINDOW_MS).
    + simpl. by rewrite !lookup_insert_eq.
    + cbn [count start]. destruct (count e + 1 >? RATE_LIMIT_MAX); simpl;
        by rewrite !lookup_insert_eq.
  - simpl. by rewrite !lookup_insert_eq.
Qed.

Lemma middleware_touches_own_entry (forwarded ip : option string) (now : Z)
    (store : gmap string RateEntry) (k : string) :
  k ≠ bucket forwarded ip →
  snd (rateLimitMiddleware forwarded ip now store) !! k = store !! k.
Proof.
  intros Hk. unfold rateLimitMiddleware. fold (bucket forwarded ip).
  destruct (store !! bucket forwarded ip) as [e |].
  - destruct (now - start e >? RATE_LIMIT_WINDOW_MS).
    + simpl. by rewrite lookup_insert_ne.
    + cbn [count start]. destruct (count e + 1 >? RATE_LIMIT_MAX); simpl;
        by rewrite lookup_insert_ne.
  - simpl. by rewrite lookup_insert_ne.
Qed.

(** X2.  Clients are limited independently: a request filed under one key
    leaves every other key's entry alone, so the verdict another client gets
    is the one it would have got without that request. *)
Theorem clients_are_limited_independently
    (f1 ip1 f2 ip2 : option string) (now1 now2 : Z) (store : gmap string RateEntry) :
  bucket f1 ip1 ≠ bucket f2 ip2 →
  snd (rateLimitMiddleware f1 ip1 now1 store) !! bucket f2 ip2 =
    store !! bucket f2 ip2 ∧
  fst (rateLimitMiddleware f2 ip2 now2 (snd (rateLimitMiddleware f1 ip1 now1 store))) =
    fst (rateLimitMiddleware f2 ip2 now2 store).
Proof.
  intros Hne.
  assert (H : snd (rateLimitMiddleware f1 ip1 now1 store) !! bucket f2 ip2 =
              store !! bucket f2 ip2)
    by (apply middleware_touches_own_entry; congruence).
  split; [exact H |].
  apply (verdict_reads_own_entry f2 ip2 now2 _ _ H).
Qed.

(** X3.  The clean-up timer is invisible to the limiter: whatever it removed
    at an earlier clock reading, the next request of any client gets the same
    verdict, and leaves the same entry for that client, as if nothing had
    been removed. *)
Theorem cleanup_does_not_change_verdicts
    (forwarded ip : option string) (cleanedAt now : Z) (store : gmap string RateEntry) :
  cleanedAt ≤ now →
  fst (rateLimitMiddleware forwarded ip now (cleanup cleanedAt store)) =
    fst (rateLimitMiddleware forwarded ip now store) ∧
  snd (rateLimitMiddleware forwarded ip now (cleanup cleanedAt store))
    !! bucket forwarded ip =
    snd (rateLimitMiddleware forwarded ip now store) !! bucket forwarded ip.
Proof.
  intros Hclock.
  destruct (store !! bucket forwarded ip) as [e |] eqn:He.
  - destruct (decide (cleanedAt - start e > RATE_LIMIT_WINDOW_MS * 2)) as [Hold | Hkeep].
    + assert (Hgone : cleanup cleanedAt store !! bucket forwarded ip = None).
      { unfold cleanup. apply map_lookup_filter_None. right.
        intros e' He'. simpl. rewrite He in He'. injection He' as <-. tauto. }
      rewrite (rateLimit_fresh _ _ _ _ Hgone).
      rewrite (rateLimit_expired _ _ _ _ e He)
        by (unfold RATE_LIMIT_WINDOW_MS in *; lia).
      simpl. by rewrite !lookup_insert_eq.
    + apply verdict_reads_own_entry. rewrite He. unfold cleanup.
      apply map_lookup_filter_Some. split; [exact He | exact Hkeep].
  - apply verdict_reads_own_entry. rewrite He. unfold cleanup.
    apply map_lookup_filter_None. left. exact He.
Qed.

(** ** Emergency packages *)

Lemma startsWith_refl (s : string) : startsWith s s = true.
Proof.
  induction s as [| c s IH]; [reflexivity |].
  apply startsWith_cons. tauto.
Qed.

Lemma includes_refl (s : string) : includes s s = true.
Proof. apply includes_of_startsWith, startsWith_refl. Qed.

(** One character, percent-encoded or not, never yields a blank. *)
Lemma encoded_char_nonspace (c : ascii) :
  string_forall nonspace
    (if uri_unreserved c then String c ""
     else String "%"
            (String (hex_digit (nat_of_ascii c / 16))
               (String (hex_digit (nat_of_ascii c mod 16)) ""))) = true.
Proof. destruct c as [[] [] [] [] [] [] [] []]; vm_compute; reflexivity. Qed.

Lemma encodeURIComponent_nonspace (s : string) :
  string_forall nonspace (encodeURIComponent s) = true.
Proof.
  induction s as [| c s IH]; [reflexivity |].
  cbn [encodeURIComponent]. cbv zeta.
  rewrite string_forall_app, encoded_char_nonspace, IH. reflexivity.
Qed.

(** Picks the share link out of a message template: the link follows
    ["My live location: "] somewhere down the right spine of the text. *)
Ltac find_link :=
  first
    [ apply includes_app_l; apply includes_app_r; apply includes_refl
    | apply includes_app_r; find_link ].

Section PackageFacts.

Variable Number_toString : float → string.

Lemma makeMapsLink_nonspace (lat lng : jsval) :
  string_forall nonspace (makeMapsLink Number_toString lat lng) = true ∧
  makeMapsLink Number_toString lat lng ≠ "".
Proof.
  unfold makeMapsLink. split; [| discriminate].
  rewrite !string_forall_app, !encodeURIComponent_nonspace. reflexivity.
Qed.

(** X4.  [buildEmergencyMessages] writes one message per guardian, in the
    order of the collection, addressed to that guardian's id, method and
    contact value; every message carries the package's share link, both in
    its [shareLink] field and inside its (trimmed) text. *)
Theorem every_message_embeds_the_link
    (riskLevel note : jsval) (guardians : list Guardian) (location : LastLocation) :
  let pack := buildEmergencyMessages Number_toString riskLevel note guardians location in
  shareLink pack = makeMapsLink Number_toString (lat location) (lng location) ∧
  List.map guardianId (messages pack) = List.map id guardians ∧
  List.map em_method (messages pack) = List.map method guardians ∧
  List.map to (messages pack) = List.map value guardians ∧
  Forall (λ m, em_shareLink m = shareLink pack ∧
               includes (em_text m) (shareLink pack) = true) (messages pack).
Proof.
  cbv zeta. unfold buildEmergencyMessages. cbv zeta. cbn [shareLink messages].
  split; [reflexivity |].
  rewrite !List.map_map. cbn [guardianId em_method to].
  split; [reflexivity |]. split; [reflexivity |]. split; [reflexivity |].
  apply Forall_map. apply Forall_forall. intros g _.
  cbn [em_shareLink em_text]. split; [reflexivity |].
  destruct (makeMapsLink_nonspace (lat location) (lng location)) as [Hns Hne].
  apply includes_trim; [exact Hns | exact Hne |].
  destruct (String.eqb (method g) "sms"),
    (String.eqb
       (toUpperCase (toString Number_toString (js_or riskLevel (JStr "HIGH"))))
       "HIGH"); find_link.
Qed.

(** The handler as one decision on what the two readers return. *)
Lemma emergencyPrepare_run (body : gmap string jsval) (w : World) :
  emergencyPrepare Number_toString body w =
  (let riskLevel := get body "riskLevel" in
   let guardians := fst (readGuardians w) in
   let location := fst (readLastLocation w) in
   if negb (truthy riskLevel) then Status400 "missing_riskLevel" []
   else if (length guardians =? 0)%nat then Status400 "no_guardians" []
   else if negb (Number_isFinite (lat location)) || negb (Number_isFinite (lng location))
   then Status400 "no_location" []
   else
     let pack :=
       buildEmergencyMessages Number_toString riskLevel (get body "note")
         guardians location in
     Status200 (mkPrepareReply
       (toUpperCase (toString Number_toString riskLevel))
       (shareLink pack) (messages pack) (recommendedActions pack)
       "Frontend should show Copy buttons + sms:/mailto: links (no real sending required)."),
   w).
Proof.
  unfold emergencyPrepare, mbind, Handler_bind, readGuardians, readLastLocation.
  cbv zeta. cbn [fst snd].
  destruct (negb (truthy (get body "riskLevel"))); [reflexivity |].
  destruct (length (default [] (guardians_file w)) =? 0)%nat; [reflexivity |].
  match goal with |- context [if ?b then _ else _] => destruct b end; reflexivity.
Qed.

(** X5.  [POST /api/emergency/prepare] (the handler on the store accessors)
    only reads: whatever the request and whatever it answers, the memory and
    the three files are as before. *)
Theorem prepare_never_writes (body : gmap string jsval) (w : World) :
  snd (emergencyPrepare Number_toString body w) = w.
Proof. rewrite emergencyPrepare_run. reflexivity. Qed.


(** Remark.  With a riskLevel, at least one guardian and a stored location whose
    latitude and longitude are finite numbers, the answer is a package built
    by [buildEmergencyMessages] from exactly the stored guardians and
    location, with one message per guardian, tagged with the riskLevel in
    upper case. *)
Theorem prepare_builds_the_package (body : gmap string jsval) (w : World) :
  truthy (get body "riskLevel") = true →
  fst (readGuardians w) ≠ [] →
  Number_isFinite (lat (fst (readLastLocation w))) = true →
  Number_isFinite (lng (fst (readLastLocation w))) = true →
  ∃ reply,
    emergencyPrepare Number_toString body w = (Status200 reply, w) ∧
    pr_riskLevel reply = toUpperCase (toString Number_toString (get body "riskLevel")) ∧
    (let pack :=
       buildEmergencyMessages Number_toString (get body "riskLevel") (get body "note")
         (fst (readGuardians w)) (fst (readLastLocation w)) in
     pr_messages reply = messages pack ∧
     pr_shareLink reply = shareLink pack ∧
     pr_recommendedActions reply = recommendedActions pack) ∧
    length (pr_messages reply) = length (fst (readGuardians w)).
Proof.
  intros Hrl Hgs Hlat Hlng. rewrite emergencyPrepare_run. cbv zeta.
  rewrite Hrl, Hlat, Hlng.
  destruct (fst (readGuardians w)) as [| g gs] eqn:Egs; [congruence |].
  cbn [negb length Nat.eqb orb].
  eexists. split; [reflexivity |].
  cbn [pr_riskLevel pr_messages pr_shareLink pr_recommendedActions].
  split; [reflexivity |]. split; [auto |].
  unfold buildEmergencyMessages. cbn [messages]. rewrite length_map. reflexivity.
Qed.

End PackageFacts.

(** ** The guardian collection *)

Lemma if_singleton_nil {A : Type} (b : bool) (x : A) :
  (if b then [x] else []) = [] → b = false.
Proof. destruct b; [discriminate | reflexivity]. Qed.

Lemma string_forall_impl (f g : ascii → bool) (s : string) :
  (∀ c, f c = true → g c = true) →
  string_forall f s = true → string_forall g s = true.
Proof.
  intros Hfg. induction s as [| c s IH]; [reflexivity |].
  simpl. intros H. apply andb_true_iff in H as [Hc Hs].
  rewrite (Hfg c Hc), (IH Hs). reflexivity.
Qed.

Lemma hex_is_nonspace (c : ascii) : is_hex c = true → nonspace c = true.
Proof. destruct c as [[] [] [] [] [] [] [] []]; vm_compute; congruence. Qed.

Lemma digit_is_phone_char (c : ascii) : is_digit c = true → phone_tail_char c = true.
Proof. intros H. unfold phone_tail_char. rewrite H. reflexivity. Qed.

(** An id made by [makeId "g"] from a hexadecimal token has no blank at
    either end. *)
Lemma trim_makeId (now : Z) (token : string) :
  string_forall is_hex token = true →
  trim (makeId "g" now token) = makeId "g" now token ∧ makeId "g" now token ≠ "".
Proof.
  intros Hhex. split; [| discriminate].
  unfold makeId, trim.
  replace (trimStart ("g" +:+ "_" +:+ pretty now +:+ "_" +:+ token))
    with ("g" +:+ "_" +:+ pretty now +:+ "_" +:+ token) by reflexivity.
  assert (Htail : trimEnd ("_" +:+ token) = "_" +:+ token).
  { apply trimEnd_fixed. simpl. fold (string_forall nonspace token).
    apply (string_forall_impl is_hex nonspace token hex_is_nonspace Hhex). }
  apply (trimEnd_app "g" ("_" +:+ pretty now +:+ "_" +:+ token)); [| discriminate].
  apply (trimEnd_app "_" (pretty now +:+ "_" +:+ token));
    [| destruct (pretty now); discriminate].
  apply (trimEnd_app (pretty now) ("_" +:+ token)); [exact Htail | discriminate].
Qed.

Lemma filter_app_last {A : Type} (p : A → bool) (l : list A) (x : A) :
  (∀ y, In y l → p y = true) → p x = false → List.filter p (l ++ [x]) = l.
Proof.
  intros Hl Hx. rewrite List.filter_app. simpl. rewrite Hx, app_nil_r.
  apply filter_all, Hl.
Qed.

Lemma readGuardians_after_write
    (m : Memory) (mf : option Memory) (l : list Guardian) (lf : option LastLocation) :
  fst (readGuardians (mkWorld m mf (Some l) lf)) = l.
Proof. reflexivity. Qed.

Section CollectionFacts.

Variable Number_toString : float → string.

(** The record [POST /api/guardians] builds from a body. *)
Lemma guardiansPost_run
    (body : gmap string jsval) (idClock : Z) (token : string) (createdClock : Z)
    (w : World) :
  guardiansPost Number_toString body idClock token createdClock w =
  (let guardian :=
     mkGuardian
       (makeId "g" idClock token)
       (trim (toString Number_toString (js_or (get body "name") (JStr ""))))
       (toLowerCase (toString Number_toString (js_or (get body "method") (JStr ""))))
       (trim (toString Number_toString (js_or (get body "value") (JStr ""))))
       (trim (toString Number_toString (js_or (get body "relationship") (JStr "friend"))))
       createdClock in
   let errors :=
     validateGuardianInput Number_toString (JStr (name guardian))
       (JStr (method guardian)) (JStr (value guardian)) in
   if negb (length errors =? 0)%nat
   then (Status400 "invalid_guardian" errors, w)
   else (Status201 guardian,
         mkWorld (MEMORY w) (memory_file w)
           (Some (fst (readGuardians w) ++ [guardian])%list) (location_file w))).
Proof.
  unfold guardiansPost. cbv zeta.
  match goal with |- context [if ?b then _ else _] => destruct b end; reflexivity.
Qed.

Lemma guardiansDelete_run (idParam : string) (w : World) :
  guardiansDelete Number_toString idParam w =
  (let id_ := trim idParam in
   let list := fst (readGuardians w) in
   let next := List.filter (λ g, negb (String.eqb (id g) id_)) list in
   if String.eqb id_ "" then (Status400 "missing_id" [], w)
   else (Status200 (Z.of_nat (length list) - Z.of_nat (length next)),
         mkWorld (MEMORY w) (memory_file w) (Some next) (location_file w))).
Proof.
  unfold guardiansDelete. rewrite toString_or_string by reflexivity. cbv zeta.
  destruct (String.eqb (trim idParam) ""); reflexivity.
Qed.

(** What passes the validator is a valid record. *)
Lemma accepted_is_valid (g : Guardian) (x y z : string) :
  name g = trim x → method g = toLowerCase y → value g = trim z →
  validateGuardianInput Number_toString (JStr (name g)) (JStr (method g))
    (JStr (value g)) = [] →
  valid_guardian g = true.
Proof.
  intros Hn Hm Hv Hok. rewrite validateGuardianInput_on_strings in Hok.
  repeat (apply app_eq_nil in Hok as [?%if_singleton_nil Hok]).
  apply if_singleton_nil in Hok.
  unfold violates in *. unfold valid_guardian.
  rewrite Hn, Hm, Hv in *. rewrite ?trim_idem, ?toLowerCase_idem in *.
  destruct (String.eqb (trim x) ""); [discriminate |].
  destruct (array_includes ["sms"; "email"] (toLowerCase y)); [| discriminate].
  destruct (String.eqb (trim z) ""); [discriminate |].
  destruct (String.eqb (toLowerCase y) "email"), (String.eqb (toLowerCase y) "sms"),
    (includes (trim z) "@"), (phone_regex_test (trim z));
    simpl in *; congruence.
Qed.


(** X8.  A guardian that was just added can be removed by the id it was
    given: when that id (made from a hexadecimal token) was not in use
    before, deleting it reports 1 and the collection is again what it was
    before the addition. *)
Theorem added_guardian_can_be_removed
    (body : gmap string jsval) (idClock : Z) (token : string) (createdClock : Z)
    (w w' : World) (g : Guardian) :
  string_forall is_hex token = true →
  guardiansPost Number_toString body idClock token createdClock w = (Status201 g, w') →
  ¬ In (id g) (List.map id (fst (readGuardians w))) →
  guardiansDelete Number_toString (id g) w' =
  (Status200 1,
   mkWorld (MEMORY w) (memory_file w) (Some (fst (readGuardians w))) (location_file w)).
Proof.
  intros Hhex Hpost Hfresh. rewrite guardiansPost_run in Hpost. cbv zeta in Hpost.
  match type of Hpost with context [if ?b then _ else _] => destruct b end;
    [discriminate |].
  injection Hpost as <- <-. cbn [id] in *.
  destruct (trim_makeId idClock token Hhex) as [Htrim Hne].
  apply String.eqb_neq in Hne.
  rewrite guardiansDelete_run. cbv zeta. rewrite Htrim, Hne.
  rewrite readGuardians_after_write. cbn [MEMORY memory_file location_file].
  rewrite filter_app_last.
  - rewrite length_app. simpl length. do 2 f_equal. lia.
  - intros y Hy. apply negb_true_iff, String.eqb_neq. intros Heq.
    apply Hfresh. rewrite <- Heq. apply in_map. exact Hy.
  - cbn [id]. rewrite String.eqb_refl. reflexivity.
Qed.


End CollectionFacts.


(** ** The last known location *)

Lemma json_roundtrip_finite (x : float) :
  Number_isFinite (JNum x) = true →
  Number_isFinite (json_roundtrip (JNum x)) = true ∧
  number_or_null (json_roundtrip (JNum x)) = json_roundtrip (JNum x).
Proof.
  unfold json_roundtrip, Number_isFinite. intros H.
  apply negb_true_iff in H. rewrite H.
  destruct (PrimFloat.eqb x 0); simpl; [split; reflexivity |].
  rewrite H. split; reflexivity.
Qed.

Lemma json_roundtrip_number_or_null (v : jsval) :
  (v = JNull ∨ ∃ x, v = JNum x) →
  number_or_null (json_roundtrip v) = json_roundtrip v.
Proof.
  intros [-> | [x ->]]; [reflexivity |].
  unfold json_roundtrip.
  destruct (is_nan x || is_infinity x); [reflexivity |].
  destruct (PrimFloat.eqb x 0); reflexivity.
Qed.

Lemma number_or_null_shape (v : jsval) :
  number_or_null v = JNull ∨ ∃ x, number_or_null v = JNum x.
Proof. destruct v; simpl; eauto. Qed.

Section LocationFacts.

Variable Number_toString : float → string.
Variable Number_parse : string → float.

Lemma locationPost_run (body : gmap string jsval) (now : float) (w : World) :
  locationPost Number_parse body now w =
  (let latN := toNumber Number_parse (get body "lat") in
   let lngN := toNumber Number_parse (get body "lng") in
   let saved :=
     mkLastLocation (JNum latN) (JNum lngN)
       (if Number_isFinite (JNum (toNumber Number_parse (get body "accuracy")))
        then JNum (toNumber Number_parse (get body "accuracy")) else JNull)
       (if Number_isFinite (JNum (toNumber Number_parse (get body "ts")))
        then JNum (toNumber Number_parse (get body "ts")) else JNum now) in
   let memory := set_hasMemory true (set_lastLocationTs (ts saved) (MEMORY w)) in
   if negb (Number_isFinite (JNum latN)) || negb (Number_isFinite (JNum lngN))
   then (Status400 "invalid_lat_lng" [], w)
   else (Status200 saved,
         mkWorld memory (Some memory) (guardians_file w)
           (Some (mkLastLocation
                    (json_roundtrip (lat saved)) (json_roundtrip (lng saved))
                    (json_roundtrip (js_nullish (accuracy saved) JNull))
                    (json_roundtrip (js_nullish (ts saved) (JNum now))))))).
Proof.
  unfold locationPost. cbv zeta.
  match goal with |- context [if ?b then _ else _] => destruct b end; reflexivity.
Qed.

(** X11.  [POST /api/location] turns away, with [invalid_lat_lng] and without
    storing anything, every body whose [lat] or [lng] does not convert to a
    finite number; a body that lacks one of the two is such a body. *)
Theorem location_needs_both_coordinates :
  (∀ (body : gmap string jsval) (now : float) (w : World),
     Number_isFinite (JNum (toNumber Number_parse (get body "lat"))) = false ∨
     Number_isFinite (JNum (toNumber Number_parse (get body "lng"))) = false →
     locationPost Number_parse body now w = (Status400 "invalid_lat_lng" [], w)) ∧
  (∀ (body : gmap string jsval) (now : float) (w : World),
     body !! "lat" = None ∨ body !! "lng" = None →
     locationPost Number_parse body now w = (Status400 "invalid_lat_lng" [], w)).
Proof.
  assert (Hbad : ∀ body now w,
            Number_isFinite (JNum (toNumber Number_parse (get body "lat"))) = false ∨
            Number_isFinite (JNum (toNumber Number_parse (get body "lng"))) = false →
            locationPost Number_parse body now w = (Status400 "invalid_lat_lng" [], w)).
  { intros body now w H. rewrite locationPost_run. cbv zeta.
    destruct H as [-> | ->]; [reflexivity |]. rewrite orb_true_r. reflexivity. }
  split; [exact Hbad |].
  intros body now w H. apply Hbad. unfold get.
  destruct H as [-> | ->]; [left | right]; reflexivity.
Qed.

(** X12.  [null] coordinates are not rejected: [Number(null)] is 0, so a body
    with [lat: null, lng: null] is accepted and stored as the point (0, 0). *)
Theorem null_coordinates_are_stored_as_zero
    (body : gmap string jsval) (now : float) (w : World) :
  get body "lat" = JNull → get body "lng" = JNull →
  ∃ saved,
    fst (locationPost Number_parse body now w) = Status200 saved ∧
    lat saved = JNum 0 ∧ lng saved = JNum 0 ∧
    lat (fst (readLastLocation (snd (locationPost Number_parse body now w)))) = JNum 0 ∧
    lng (fst (readLastLocation (snd (locationPost Number_parse body now w)))) = JNum 0.
Proof.
  intros Hlat Hlng. rewrite locationPost_run. cbv zeta. rewrite Hlat, Hlng.
  eexists. split; [reflexivity |]. repeat split.
Qed.

Lemma saved_after_post
    (body : gmap string jsval) (now : float) (w w' : World) (saved : LastLocation) :
  locationPost Number_parse body now w = (Status200 saved, w') →
  Number_isFinite (lat saved) = true ∧ Number_isFinite (lng saved) = true ∧
  (accuracy saved = JNull ∨ ∃ x, accuracy saved = JNum x) ∧
  (∃ x, ts saved = JNum x) ∧
  w' = mkWorld (set_hasMemory true (set_lastLocationTs (ts saved) (MEMORY w)))
         (Some (set_hasMemory true (set_lastLocationTs (ts saved) (MEMORY w))))
         (guardians_file w)
         (Some (mkLastLocation
                  (json_roundtrip (lat saved)) (json_roundtrip (lng saved))
                  (json_roundtrip (accuracy saved)) (json_roundtrip (ts saved)))).
Proof.
  rewrite locationPost_run. cbv zeta.
  destruct (Number_isFinite (JNum (toNumber Number_parse (get body "lat")))) eqn:Hlat;
    [| discriminate].
  destruct (Number_isFinite (JNum (toNumber Number_parse (get body "lng")))) eqn:Hlng;
    [| discriminate].
  destruct (Number_isFinite (JNum (toNumber Number_parse (get body "accuracy"))));
    destruct (Number_isFinite (JNum (toNumber Number_parse (get body "ts"))));
    intros [= <- <-]; (split; [exact Hlat |]); (split; [exact Hlng |]);
    (split; [cbn [accuracy]; eauto |]); (split; [cbn [ts]; eauto |]); reflexivity.
Qed.


(** X14.  [GET /api/location] changes nothing and never hands out anything
    but numbers and nulls: whatever JSON values the file holds in its four
    slots, each returned field is a number or null, and all four are null
    when there is no readable file. *)
Theorem location_is_sanitised_on_read (w : World) :
  ∃ loc,
    locationGet w = (Status200 loc, w) ∧
    (lat loc = JNull ∨ ∃ x, lat loc = JNum x) ∧
    (lng loc = JNull ∨ ∃ x, lng loc = JNum x) ∧
    (accuracy loc = JNull ∨ ∃ x, accuracy loc = JNum x) ∧
    (ts loc = JNull ∨ ∃ x, ts loc = JNum x) ∧
    (location_file w = None → loc = mkLastLocation JNull JNull JNull JNull).
Proof.
  unfold locationGet, readLastLocation, mbind, Handler_bind, mret, Handler_ret.
  eexists. split; [reflexivity |].
  destruct (location_file w) as [loc |]; cbn [lat lng accuracy ts].
  - repeat split; try apply number_or_null_shape. discriminate.
  - repeat split; auto.
Qed.


End LocationFacts.

(** ** More on the risk engine *)

Lemma classify_HIGH (score : Z) : classify score = "HIGH" ↔ 70 ≤ score.
Proof.
  unfold classify.
  destruct (Z.geb_spec score 70), (Z.geb_spec score 40);
    split; intros; try lia; try discriminate; reflexivity.
Qed.

Lemma classify_MEDIUM (score : Z) : classify score = "MEDIUM" ↔ 40 ≤ score < 70.
Proof.
  unfold classify.
  destruct (Z.geb_spec score 70), (Z.geb_spec score 40);
    split; intros; try lia; try discriminate; reflexivity.
Qed.

Lemma strict_eq_true_true (v : jsval) : strict_eq_true v = true ↔ v = JBool true.
Proof.
  destruct v as [| | [] | |]; simpl; split; intros H; try discriminate; try reflexivity.
Qed.

Lemma weight_off (b : bool) (p : Z) : b = false → weight b p = 0.
Proof. intros ->. reflexivity. Qed.

Lemma get_delete_ne (body : gmap string jsval) (k k' : string) :
  k ≠ k' → get (delete k body) k' = get body k'.
Proof. intros Hne. unfold get. by rewrite lookup_delete_ne. Qed.

Lemma find_first_failure {A : Type} (p : A → bool) (l : list A) :
  forallb p l = false →
  ∃ l1 x l2,
    l = (l1 ++ x :: l2)%list ∧ forallb p l1 = true ∧ p x = false ∧
    List.find (λ y, negb (p y)) l = Some x.
Proof.
  induction l as [| a l IH]; [discriminate |].
  simpl. destruct (p a) eqn:Ha; simpl.
  - intros H. destruct (IH H) as (l1 & x & l2 & -> & H1 & Hx & Hfind).
    exists (a :: l1), x, l2. simpl. rewrite Ha, H1. auto.
  - intros _. exists [], a, l. auto.
Qed.

Section MoreRiskFacts.

Variable Number_toString : float → string.

Lemma score_is_weightSum (input : gmap string jsval) :
  riskScore (offlineRiskEngine Number_toString input) = weightSum input.
Proof.
  rewrite offlineRiskEngine_score. apply clamp_inside.
  pose proof (weightSum_range input). lia.
Qed.

(** X16.  HIGH is only ever the verdict for somebody alone at night: if the
    engine classifies HIGH, then [timeOfDay] is "night", [userAlone] is true
    and the score is at least 70. *)
Theorem high_risk_only_alone_at_night (input : gmap string jsval) :
  riskLevel (offlineRiskEngine Number_toString input) = "HIGH" →
  get input "timeOfDay" = JStr "night" ∧
  get input "userAlone" = JBool true ∧
  70 ≤ riskScore (offlineRiskEngine Number_toString input).
Proof.
  rewrite offlineRiskEngine_level, classify_HIGH, score_is_weightSum.
  rewrite <- strict_eq_str_true, <- strict_eq_true_true.
  unfold weightSum, weight.
  pose proof (strict_eq_str_exclusive (get input "neighborhoodType")
                "industrial" "downtown" ltac:(discriminate)).
  pose proof (strict_eq_str_exclusive (get input "routeLighting")
                "poor" "mixed" ltac:(discriminate)).
  destruct (strict_eq_str (get input "timeOfDay") "night"),
    (strict_eq_true (get input "userAlone")),
    (strict_eq_str (get input "neighborhoodType") "industrial"),
    (strict_eq_str (get input "neighborhoodType") "downtown"),
    (strict_eq_str (get input "routeLighting") "poor"),
    (strict_eq_str (get input "routeLighting") "mixed");
    simpl in *; try discriminate; intros; repeat split; lia.
Qed.

(** X17.  By day and in company the score stays at or below 40: the verdict
    is never HIGH, and it is MEDIUM exactly for an industrial neighbourhood
    with poor lighting. *)
Theorem accompanied_by_day_is_at_most_MEDIUM (input : gmap string jsval) :
  get input "timeOfDay" ≠ JStr "night" →
  get input "userAlone" ≠ JBool true →
  riskScore (offlineRiskEngine Number_toString input) ≤ 40 ∧
  riskLevel (offlineRiskEngine Number_toString input) ≠ "HIGH" ∧
  (riskLevel (offlineRiskEngine Number_toString input) = "MEDIUM" ↔
   get input "neighborhoodType" = JStr "industrial" ∧
   get input "routeLighting" = JStr "poor").
Proof.
  intros Hday Hcompany.
  rewrite offlineRiskEngine_level, classify_HIGH, classify_MEDIUM, score_is_weightSum.
  unfold weightSum.
  rewrite (weight_off (strict_eq_str (get input "timeOfDay") "night"))
    by (apply not_true_is_false; rewrite strict_eq_str_true; exact Hday).
  rewrite (weight_off (strict_eq_true (get input "userAlone")))
    by (apply not_true_is_false; rewrite strict_eq_true_true; exact Hcompany).
  rewrite <- !strict_eq_str_true.
  pose proof (strict_eq_str_exclusive (get input "neighborhoodType")
                "industrial" "downtown" ltac:(discriminate)).
  pose proof (strict_eq_str_exclusive (get input "routeLighting")
                "poor" "mixed" ltac:(discriminate)).
  destruct (strict_eq_str (get input "neighborhoodType") "industrial"),
    (strict_eq_str (get input "neighborhoodType") "downtown"),
    (strict_eq_str (get input "routeLighting") "poor"),
    (strict_eq_str (get input "routeLighting") "mixed");
    simpl in *; try discriminate; repeat split; try lia; try tauto;
    intros; try lia; intuition discriminate.
Qed.

(** X18.  The engine looks at four fields and nothing else: setting or
    removing any other field of the body ([scenarioId] included) leaves the
    whole result, reasoning text included, as it was. *)
Theorem engine_reads_four_fields_only
    (input : gmap string jsval) (k : string) (v : jsval) :
  k ≠ "timeOfDay" → k ≠ "userAlone" → k ≠ "neighborhoodType" → k ≠ "routeLighting" →
  offlineRiskEngine Number_toString (<[k := v]> input) =
    offlineRiskEngine Number_toString input ∧
  offlineRiskEngine Number_toString (delete k input) =
    offlineRiskEngine Number_toString input ∧
  fallbackRisk Number_toString (<[k := v]> input) =
    fallbackRisk Number_toString input ∧
  fallbackRisk Number_toString (delete k input) =
    fallbackRisk Number_toString input.
Proof.
  intros H1 H2 H3 H4.
  unfold offlineRiskEngine, fallbackRisk, inputsLine.
  rewrite !get_insert_ne, !get_delete_ne by assumption.
  repeat split.
Qed.

(** Remark.  The scorer of [server/index.js] and the offline engine agree on
    every scenario in score, classification, guardian message and safer
    action; only the reasoning line is worded differently. *)
Theorem the_two_scorers_agree (input : gmap string jsval) :
  riskScore (fallbackRisk Number_toString input) =
    riskScore (offlineRiskEngine Number_toString input) ∧
  riskLevel (fallbackRisk Number_toString input) =
    riskLevel (offlineRiskEngine Number_toString input) ∧
  guardianMessage (fallbackRisk Number_toString input) =
    guardianMessage (offlineRiskEngine Number_toString input) ∧
  saferAction (fallbackRisk Number_toString input) =
    saferAction (offlineRiskEngine Number_toString input).
Proof. repeat split. Qed.

(** X19.  [POST /api/risk-assess] checks the five required fields in the
    order scenarioId, timeOfDay, userAlone, neighborhoodType, routeLighting:
    when one is missing it answers [missing_<field>] for the first missing
    one, runs no assessment and leaves the state alone, even when the fields
    present would classify LOW. *)
Theorem riskAssess_reports_first_missing_field
    (body : gmap string jsval) (w : World) :
  forallb (has_field body) required = false →
  ∃ before field after,
    required = (before ++ field :: after)%list ∧
    forallb (has_field body) before = true ∧
    has_field body field = false ∧
    riskAssess Number_toString body w = (Status400 ("missing_" +:+ field) [], w).
Proof.
  intros Hmiss.
  destruct (find_first_failure (has_field body) required Hmiss)
    as (before & field & after & Hsplit & Hbefore & Hfield & Hfind).
  exists before, field, after. repeat split; try assumption.
  unfold riskAssess. rewrite Hfind. reflexivity.
Qed.

End MoreRiskFacts.

(** ** More on the emergency script *)

Lemma substring_prefix (n : nat) (s : string) :
  String.prefix (String.substring 0 n s) s = true ∧
  (String.length (String.substring 0 n s) ≤ n)%nat ∧
  ((String.length s ≤ n)%nat → String.substring 0 n s = s).
Proof.
  revert s. induction n as [| n IH]; intros s.
  - destruct s; simpl; repeat split; try lia; intros H; simpl in H; try lia; reflexivity.
  - destruct s as [| c s]; simpl; [repeat split; lia |].
    destruct (IH s) as (Hp & Hl & He).
    destruct (ascii_dec c c) as [_ | Hne]; [| congruence].
    repeat split; [exact Hp | lia |].
    intros H. rewrite He by lia. reflexivity.
Qed.

(** Picks an optional clause out of a script template: the clause is the
    left operand of an append somewhere down the right spine of the text. *)
Ltac find_clause :=
  first
    [ apply includes_app_l; apply includes_refl
    | apply includes_app_r; find_clause ].

Lemma script_shape (script : EmergencyScript) (level where_ contextBit : string) :
  script = securityScript level where_ contextBit ∨
  script = familyScript level where_ contextBit ∨
  script = friendScript level where_ contextBit →
  (∃ first, checklist script = first :: baseChecklist) ∧
  length (checklist script) = 4%nat ∧
  length (suggestedFollowups script) = 3%nat ∧
  In (title script) ["Security message"; "Family message"; "Quick message"] ∧
  includes (text script) where_ = true ∧
  includes (text script) contextBit = true.
Proof.
  intros [-> | [-> | ->]];
    unfold securityScript, familyScript, friendScript;
    cbn [checklist suggestedFollowups title text];
    (split; [eexists; reflexivity |]);
    (split; [reflexivity |]); (split; [reflexivity |]);
    (split; [simpl; tauto |]);
    destruct (String.eqb level "HIGH"), (String.eqb level "MEDIUM");
    split; find_clause.
Qed.

Lemma buildEmergencyScript_returns_template
    (riskLevel contactType locationText extra : jsval) (script : EmergencyScript) :
  buildEmergencyScript riskLevel contactType locationText extra = Returns script →
  ∃ level contact loc ctx,
    string_method toUpperCase (js_or riskLevel (JStr "MEDIUM")) = Returns level ∧
    string_method toLowerCase (js_or contactType (JStr "friend")) = Returns contact ∧
    string_method trim (js_or locationText (JStr "")) = Returns loc ∧
    string_method trim (js_or extra (JStr "")) = Returns ctx ∧
    let where_ := if negb (String.eqb loc "") then " near " +:+ loc else "" in
    let contextBit := if negb (String.eqb ctx "") then " (" +:+ ctx +:+ ")" else "" in
    (script = securityScript level where_ contextBit ∨
     script = familyScript level where_ contextBit ∨
     script = friendScript level where_ contextBit).
Proof.
  unfold buildEmergencyScript, mbind, result_mbind, result_bind, mret, result_ret.
  destruct (string_method toUpperCase (js_or riskLevel (JStr "MEDIUM"))) as [level |];
    [| discriminate].
  destruct (string_method toLowerCase (js_or contactType (JStr "friend"))) as [contact |];
    [| discriminate].
  destruct (string_method trim (js_or locationText (JStr ""))) as [loc |];
    [| discriminate].
  destruct (string_method trim (js_or extra (JStr ""))) as [ctx |]; [| discriminate].
  cbv zeta. intros H. exists level, contact, loc, ctx.
  repeat (split; [reflexivity |]).
  destruct (String.eqb contact "campus" || String.eqb contact "security");
    [injection H as <-; auto |].
  destruct (String.eqb contact "family"); injection H as <-; auto.
Qed.




Section ScriptHandlerFacts.

Variable Number_toString : float → string.


End ScriptHandlerFacts.

(** ** More on phrase suggestions *)

Lemma In_take {A : Type} (n : nat) (l : list A) (x : A) : In x (take n l) → In x l.
Proof.
  revert l. induction n as [| n IH]; intros [| a l]; simpl; try tauto.
  intros [-> | H]; [tauto | right; apply IH, H].
Qed.

Lemma NoDup_take_list {A : Type} (n : nat) (l : list A) :
  List.NoDup l → List.NoDup (take n l).
Proof.
  revert l. induction n as [| n IH]; intros [| a l] H; simpl; try constructor.
  - apply List.NoDup_cons_iff in H as [Ha _]. intros Hin. apply Ha.
    apply (In_take n l a Hin).
  - apply IH. apply List.NoDup_cons_iff in H as [_ H]. exact H.
Qed.

Lemma take_all_or_full {A : Type} (n : nat) (l : list A) :
  take n l = l ∨ length (take n l) = n.
Proof.
  destruct (Nat.le_gt_cases (length l) n) as [Hle | Hgt].
  - left. apply firstn_all2. exact Hle.
  - right. rewrite length_take. lia.
Qed.

Lemma library_NoDup : List.NoDup library.
Proof.
  unfold library.
  repeat (constructor; [simpl; intuition discriminate |]). constructor.
Qed.

Lemma is_space_upper_char (c : ascii) : is_space (upper_char c) = is_space c.
Proof. destruct c as [[] [] [] [] [] [] [] []]; reflexivity. Qed.

Lemma is_space_lower_char (c : ascii) : is_space (lower_char c) = is_space c.
Proof. destruct c as [[] [] [] [] [] [] [] []]; reflexivity. Qed.

Lemma lower_upper_char (c : ascii) : lower_char (upper_char c) = lower_char c.
Proof. destruct c as [[] [] [] [] [] [] [] []]; reflexivity. Qed.

Lemma toLowerCase_toUpperCase (s : string) : toLowerCase (toUpperCase s) = toLowerCase s.
Proof.
  induction s as [| c s IH]; [reflexivity |].
  unfold toLowerCase, toUpperCase in *. simpl. rewrite lower_upper_char, IH. reflexivity.
Qed.

Lemma map_string_eqb_empty (f : ascii → ascii) (s : string) :
  String.eqb (map_string f s) "" = String.eqb s "".
Proof. destruct s; reflexivity. Qed.

(** Case conversion does not turn blanks into letters or back, so it
    commutes with [trim]. *)
Lemma trimStart_map_string (f : ascii → ascii) (s : string) :
  (∀ c, is_space (f c) = is_space c) →
  trimStart (map_string f s) = map_string f (trimStart s).
Proof.
  intros Hf. induction s as [| c s IH]; [reflexivity |].
  simpl. rewrite Hf. destruct (is_space c); [exact IH | reflexivity].
Qed.

Lemma trimEnd_map_string (f : ascii → ascii) (s : string) :
  (∀ c, is_space (f c) = is_space c) →
  trimEnd (map_string f s) = map_string f (trimEnd s).
Proof.
  intros Hf. induction s as [| c s IH]; [reflexivity |].
  simpl. rewrite Hf, IH, map_string_eqb_empty.
  destruct (is_space c && String.eqb (trimEnd s) ""); reflexivity.
Qed.

Lemma trim_toUpperCase (s : string) : trim (toUpperCase s) = toUpperCase (trim s).
Proof.
  unfold trim, toUpperCase.
  rewrite trimStart_map_string, trimEnd_map_string by apply is_space_upper_char.
  reflexivity.
Qed.

Lemma trim_toLowerCase (s : string) : trim (toLowerCase s) = toLowerCase (trim s).
Proof.
  unfold trim, toLowerCase.
  rewrite trimStart_map_string, trimEnd_map_string by apply is_space_lower_char.
  reflexivity.
Qed.

(** What a suggestion for a non-blank prefix is drawn from. *)
Lemma suggestion_matches (p s : string) :
  In s (List.filter (λ s, startsWith (toLowerCase s) p) library ++
        List.filter (λ s, negb (startsWith (toLowerCase s) p) &&
                          includes (toLowerCase s) p) library) ↔
  In s library ∧ includes (toLowerCase s) p = true.
Proof.
  rewrite in_app_iff, !filter_In, andb_true_iff, negb_true_iff. split.
  - intros [[Hs Hp] | [Hs [_ Hp]]]; split; try assumption.
    apply includes_of_startsWith, Hp.
  - intros [Hs Hp]. destruct (startsWith (toLowerCase s) p) eqn:E; auto.
Qed.


(** X25.  Nothing that matches is left out unless the cap is reached: for a
    prefix that is not blank, a library entry whose lowercase form contains
    the lowercase trimmed prefix is among the suggestions, or else exactly 8
    suggestions are returned. *)
Theorem suggestions_are_complete_up_to_the_cap (prefixRaw s : string) :
  trim prefixRaw ≠ "" →
  In s library →
  includes (toLowerCase s) (toLowerCase (trim prefixRaw)) = true →
  In s (presageSuggest prefixRaw) ∨ length (presageSuggest prefixRaw) = 8%nat.
Proof.
  intros Hne Hs Hp. rewrite presageSuggest_trimmed. unfold suggest_spec.
  apply String.eqb_neq in Hne. rewrite Hne. cbv zeta.
  match goal with |- In s (take 8 ?l) ∨ _ =>
    destruct (take_all_or_full 8 l) as [-> | Hfull] end; [left | right; exact Hfull].
  apply suggestion_matches. tauto.
Qed.

(** X26.  Matching does not depend on the case of what was typed: the prefix
    in upper case, or in lower case, gets the same suggestions. *)
Theorem suggestions_ignore_case (prefixRaw : string) :
  presageSuggest (toUpperCase prefixRaw) = presageSuggest prefixRaw ∧
  presageSuggest (toLowerCase prefixRaw) = presageSuggest prefixRaw.
Proof.
  unfold presageSuggest.
  rewrite trim_toUpperCase, trim_toLowerCase, toLowerCase_toUpperCase, toLowerCase_idem.
  split; reflexivity.
Qed.

(** ** The rule-based chat *)

Lemma toLowerCase_app (a b : string) :
  toLowerCase (a +:+ b) = toLowerCase a +:+ toLowerCase b.
Proof.
  unfold toLowerCase. induction a as [| c a IH]; [reflexivity |].
  simpl. rewrite IH. reflexivity.
Qed.

Lemma fear_keyword_nonspace (kw : string) :
  In kw fear_keywords → string_forall nonspace kw = true ∧ kw ≠ "".
Proof.
  unfold fear_keywords. simpl.
  intros [<- | [<- | [<- | [<- | [<- | [<- | []]]]]]]; split;
    reflexivity || discriminate.
Qed.

Section ChatFacts.

Variable Number_toString : float → string.

(** X27.  A message that is left out, empty or blank is answered with the
    request for context, whatever the risk level in the context. *)
Theorem blank_message_asks_for_context (message riskLevel : jsval) :
  truthy message = false ∨ (∃ s, message = JStr s ∧ trim s = "") →
  intent (buildChatReply Number_toString message riskLevel) = "ask_for_context".
Proof.
  intros H. unfold buildChatReply.
  assert (Hblank : trim (toLowerCase
            (toString Number_toString (js_or message (JStr "")))) = "").
  { destruct H as [Hf | (s & -> & Hs)].
    - rewrite (js_or_falsy message _ Hf). reflexivity.
    - rewrite toString_or_string by reflexivity.
      rewrite trim_toLowerCase, Hs. reflexivity. }
  rewrite Hblank. reflexivity.
Qed.


End ChatFacts.

(** ** Client keys, model names and [clamp] *)

Lemma before_comma_app (a rest : string) :
  string_forall (λ c, negb (Ascii.eqb c ",")) a = true →
  before_comma (a +:+ "," +:+ rest) = a ∧ before_comma a = a.
Proof.
  induction a as [| c a IH]; [split; reflexivity |].
  simpl. intros H. apply andb_true_iff in H as [Hc Ha].
  apply negb_true_iff in Hc. rewrite Hc. destruct (IH Ha) as [-> ->].
  split; reflexivity.
Qed.


(** X30.  [normalizeGeminiModelName] qualifies a model name once: a
    non-empty name comes back starting with "models/", and normalising the
    result again changes nothing.  A missing name yields the bare default
    "gemini-2.0-flash", which is not qualified and is not a fixed point. *)
Theorem model_name_is_qualified_once :
  (∀ n : string,
     n ≠ "" →
     ∃ r, normalizeGeminiModelName (JStr n) = Returns r ∧
          startsWith r "models/" = true ∧
          normalizeGeminiModelName (JStr r) = Returns r) ∧
  (∀ v : jsval,
     truthy v = false → normalizeGeminiModelName v = Returns "gemini-2.0-flash") ∧
  startsWith "gemini-2.0-flash" "models/" = false ∧
  normalizeGeminiModelName (JStr "gemini-2.0-flash") =
    Returns "models/gemini-2.0-flash".
Proof.
  split; [| split; [| split; reflexivity]].
  - intros n Hne. unfold normalizeGeminiModelName. simpl truthy.
    apply String.eqb_neq in Hne. rewrite Hne. simpl negb. cbv iota.
    destruct (startsWith n "models/") eqn:E.
    + exists n. split; [reflexivity |]. split; [exact E |].
      rewrite Hne, E. reflexivity.
    + exists ("models/" +:+ n). split; [reflexivity |].
      split; [apply startsWith_self_app |].
      rewrite (startsWith_self_app "models/" n). reflexivity.
  - intros v Hv. unfold normalizeGeminiModelName. rewrite Hv. reflexivity.
Qed.

(** Remark.  [clamp(v, min, max)] with [min <= max] lands in [[min, max]], leaves
    a value already inside alone (so clamping twice is clamping once) and
    keeps the order of its arguments. *)
Theorem clamp_is_a_projection (u v lo hi : Z) :
  lo ≤ hi →
  lo ≤ clamp v lo hi ≤ hi ∧
  (lo ≤ v ≤ hi → clamp v lo hi = v) ∧
  clamp (clamp v lo hi) lo hi = clamp v lo hi ∧
  (u ≤ v → clamp u lo hi ≤ clamp v lo hi).
Proof.
  intros Hle. pose proof (clamp_range v lo hi Hle) as Hr.
  split; [exact Hr |]. split; [apply clamp_inside |].
  split; [apply clamp_inside, Hr | apply clamp_monotone, Hle].
Qed.

(** ** Instances of the properties above *)

(** Forty-one requests within six milliseconds from one address. *)
Lemma burst_is_cut_after_40_witness :
  (∅ : gmap string RateEntry) !! bucket None (Some "203.0.113.7") = None ∧
  Forall (λ t, t - 0 ≤ RATE_LIMIT_WINDOW_MS) (replicate 40 5) ∧
  fst (requests None (Some "203.0.113.7") (0 :: replicate 40 5) ∅) =
  (replicate 40 Next ++ [RateLimited])%list.
Proof.
  assert (H : Forall (λ t, t - 0 ≤ RATE_LIMIT_WINDOW_MS) (replicate 40 5))
    by (apply Forall_replicate; unfold RATE_LIMIT_WINDOW_MS; lia).
  split; [reflexivity |]. split; [exact H |].
  exact (burst_is_cut_after_40 None (Some "203.0.113.7") 0 (replicate 40 5) ∅
           eq_refl H).
Defined.

Lemma clients_are_limited_independently_witness :
  bucket (Some "198.51.100.1") None ≠ bucket None (Some "203.0.113.7") ∧
  fst (rateLimitMiddleware None (Some "203.0.113.7") 2
         (snd (rateLimitMiddleware (Some "198.51.100.1") None 1 ∅))) =
  fst (rateLimitMiddleware None (Some "203.0.113.7") 2 ∅).
Proof.
  assert (H : bucket (Some "198.51.100.1") None ≠ bucket None (Some "203.0.113.7"))
    by (vm_compute; discriminate).
  split; [exact H |].
  exact (proj2 (clients_are_limited_independently
                  (Some "198.51.100.1") None None (Some "203.0.113.7") 1 2 ∅ H)).
Defined.

(** An entry three minutes old is removed, and the client's next request is
    treated as it would have been anyway. *)
Lemma cleanup_does_not_change_verdicts_witness :
  let store : gmap string RateEntry := <["203.0.113.7" := mkRateEntry 40 0]> ∅ in
  180001 ≤ 180002 ∧
  cleanup 180001 store !! "203.0.113.7" = None ∧
  fst (rateLimitMiddleware None (Some "203.0.113.7") 180002 (cleanup 180001 store)) =
  fst (rateLimitMiddleware None (Some "203.0.113.7") 180002 store).
Proof.
  intros store. split; [lia |]. split; [vm_compute; reflexivity |].
  exact (proj1 (cleanup_does_not_change_verdicts None (Some "203.0.113.7")
                  180001 180002 store ltac:(lia))).
Defined.



(** Cem is added to a collection that holds Ann and removed again. *)
Lemma added_guardian_can_be_removed_witness :
  let body : gmap string jsval :=
    <["name" := JStr "Cem"]>
      (<["method" := JStr "email"]> (<["value" := JStr "cem@example.org"]> ∅)) in
  let w := startup None (Some [ann]) None in
  let g := mkGuardian "g_1700000000000_a1b2c3" "Cem" "email" "cem@example.org"
             "friend" 1700000000001 in
  let w' := mkWorld (MEMORY w) (memory_file w) (Some [ann; g]) (location_file w) in
  guardiansPost no_digits body 1700000000000 "a1b2c3" 1700000000001 w = (Status201 g, w') ∧
  guardiansDelete no_digits (id g) w' = (Status200 1, w).
Proof.
  intros body w g w'.
  assert (Hpost : guardiansPost no_digits body 1700000000000 "a1b2c3" 1700000000001 w =
                  (Status201 g, w')) by (vm_compute; reflexivity).
  split; [exact Hpost |].
  exact (added_guardian_can_be_removed no_digits body 1700000000000 "a1b2c3"
           1700000000001 w w' g eq_refl Hpost
           ltac:(vm_compute; intuition discriminate)).
Defined.


Lemma null_coordinates_are_stored_as_zero_witness :
  let body : gmap string jsval := <["lat" := JNull]> (<["lng" := JNull]> ∅) in
  get body "lat" = JNull ∧ get body "lng" = JNull ∧
  ∃ saved,
    fst (locationPost no_parse body 1700000000000 (startup None None None)) =
      Status200 saved ∧
    lat saved = JNum 0 ∧ lng saved = JNum 0.
Proof.
  intros body. split; [reflexivity |]. split; [reflexivity |].
  destruct (null_coordinates_are_stored_as_zero no_parse body 1700000000000
              (startup None None None) eq_refl eq_refl)
    as (saved & H1 & H2 & H3 & _).
  exists saved. auto.
Defined.



Lemma high_risk_only_alone_at_night_witness :
  let input := scenario (JStr "s2") "night" true "residential" "poor" in
  riskLevel (offlineRiskEngine no_digits input) = "HIGH" ∧
  get input "timeOfDay" = JStr "night" ∧ get input "userAlone" = JBool true.
Proof.
  intros input. split; [reflexivity |].
  destruct (high_risk_only_alone_at_night no_digits input eq_refl) as (H1 & H2 & _).
  split; assumption.
Defined.

Lemma accompanied_by_day_is_at_most_MEDIUM_witness :
  get preset_s1 "timeOfDay" ≠ JStr "night" ∧
  get preset_s1 "userAlone" ≠ JBool true ∧
  riskScore (offlineRiskEngine no_digits preset_s1) ≤ 40.
Proof.
  assert (H1 : get preset_s1 "timeOfDay" ≠ JStr "night") by (vm_compute; discriminate).
  assert (H2 : get preset_s1 "userAlone" ≠ JBool true) by (vm_compute; discriminate).
  split; [exact H1 |]. split; [exact H2 |].
  exact (proj1 (accompanied_by_day_is_at_most_MEDIUM no_digits preset_s1 H1 H2)).
Defined.

Lemma engine_reads_four_fields_only_witness :
  offlineRiskEngine no_digits (<["scenarioId" := JStr "other"]> preset_s1) =
  offlineRiskEngine no_digits preset_s1.
Proof.
  exact (proj1 (engine_reads_four_fields_only no_digits preset_s1 "scenarioId"
                  (JStr "other")
                  ltac:(discriminate) ltac:(discriminate)
                  ltac:(discriminate) ltac:(discriminate))).
Defined.

(** A LOW scenario sent without its id: nothing is assessed or stored. *)
Lemma riskAssess_reports_first_missing_field_witness :
  let body := delete "scenarioId" preset_s1 in
  forallb (has_field body) required = false ∧
  ∃ before field after,
    required = (before ++ field :: after)%list ∧
    riskAssess no_digits body (startup None None None) =
    (Status400 ("missing_" +:+ field) [], startup None None None).
Proof.
  intros body. split; [reflexivity |].
  destruct (riskAssess_reports_first_missing_field no_digits body
              (startup None None None) eq_refl)
    as (before & field & after & H1 & _ & _ & H2).
  exists before, field, after. auto.
Defined.




Lemma suggestions_are_complete_up_to_the_cap_witness :
  trim " Can " ≠ "" ∧
  In "Please call me when you can." library ∧
  (In "Please call me when you can." (presageSuggest " Can ") ∨
   length (presageSuggest " Can ") = 8%nat).
Proof.
  assert (H1 : trim " Can " ≠ "") by (vm_compute; discriminate).
  assert (H2 : In "Please call me when you can." library) by (simpl; tauto).
  split; [exact H1 |]. split; [exact H2 |].
  exact (suggestions_are_complete_up_to_the_cap " Can "
           "Please call me when you can." H1 H2 eq_refl).
Defined.

Lemma blank_message_asks_for_context_witness :
  trim "   " = "" ∧
  intent (buildChatReply no_digits (JStr "   ") (JStr "HIGH")) = "ask_for_context".
Proof.
  split; [reflexivity |].
  exact (blank_message_asks_for_context no_digits (JStr "   ") (JStr "HIGH")
           (or_intror (ex_intro _ "   " (conj eq_refl eq_refl)))).
Defined.


